(** * Tarot front end (app.js): the event-stream reader of [startStream]

    A shallow embedding of [src/app.js].  A JavaScript string is the list of
    its UTF-16 code units, a [Uint8Array] chunk is a list of bytes, the DOM
    elements the script writes to are optional fields of a record (the
    script guards every access with [if (el)]), and an [async] function is a
    state machine that is resumed with the value its pending [await]
    settles with. *)

From Stdlib Require Import NArith QArith_base List Bool Lia Strings.String Strings.Ascii Strings.Byte.
From stdpp Require Import base list.
Import ListNotations.

Local Open Scope N_scope.
Local Open Scope list_scope.

(** ** JavaScript strings *)

Module JS.

Definition jsstring := list N.

(** A literal of ASCII characters. *)
Definition lit (s : string) : jsstring := map N_of_ascii (list_ascii_of_string s).
Arguments lit s%_string.

Definition LF : N := 10.

(** [s.startsWith(p)] *)
Fixpoint startsWith (s p : jsstring) {struct p} : bool :=
  match p with
  | [] => true
  | a :: p' =>
      match s with
      | [] => false
      | b :: s' => N.eqb a b && startsWith s' p'
      end
  end.

(** [s.slice(start)] for a non-negative [start] and no end index. *)
Definition slice (s : jsstring) (start : nat) : jsstring := skipn start s.

(** WhiteSpace and LineTerminator code units of ECMAScript, the ones
    [String.prototype.trim] strips. *)
Definition isWhiteSpace (c : N) : bool :=
  (c =? 9) || (c =? 10) || (c =? 11) || (c =? 12) || (c =? 13) || (c =? 32)
  || (c =? 160) || (c =? 5760) || ((8192 <=? c) && (c <=? 8202))
  || (c =? 8232) || (c =? 8233) || (c =? 8239) || (c =? 8287)
  || (c =? 12288) || (c =? 65279).

Fixpoint trimStart (s : jsstring) : jsstring :=
  match s with
  | [] => []
  | c :: r => if isWhiteSpace c then trimStart r else s
  end.

Definition trimEnd (s : jsstring) : jsstring := rev (trimStart (rev s)).

(** [s.trim()] *)
Definition trim (s : jsstring) : jsstring := trimEnd (trimStart s).

(** [parts.join(sep)] *)
Fixpoint join (sep : jsstring) (parts : list jsstring) : jsstring :=
  match parts with
  | [] => []
  | p :: ps =>
      match ps with
      | [] => p
      | _ :: _ => p ++ sep ++ join sep ps
      end
  end.

Definition cons_head (c : N) (parts : list jsstring) : list jsstring :=
  match parts with
  | [] => [[c]]
  | p :: ps => (c :: p) :: ps
  end.

(** [s.split(sep)] for a non-empty separator: the occurrences of [sep] are
    searched from the left and do not overlap.  [skip] counts the code units
    of a matched separator that are still to be passed over. *)
Fixpoint split_go (sep : jsstring) (skip : nat) (s : jsstring) : list jsstring :=
  match s with
  | [] => [[]]
  | c :: r =>
      match skip with
      | S k => split_go sep k r
      | O =>
          if startsWith s sep
          then [] :: split_go sep (Nat.pred (List.length sep)) r
          else cons_head c (split_go sep 0 r)
      end
  end.

Definition split (s sep : jsstring) : list jsstring := split_go sep 0 s.

(** [s.replaceAll(pat, rep)] for a non-empty string pattern. *)
Fixpoint replaceAll_go (pat rep : jsstring) (skip : nat) (s : jsstring) : jsstring :=
  match s with
  | [] => []
  | c :: r =>
      match skip with
      | S k => replaceAll_go pat rep k r
      | O =>
          if startsWith s pat
          then rep ++ replaceAll_go pat rep (Nat.pred (List.length pat)) r
          else c :: replaceAll_go pat rep 0 r
      end
  end.

Definition replaceAll (s pat rep : jsstring) : jsstring := replaceAll_go pat rep 0 s.

(** [arr.pop()] on the array of parts: the element removed, or the empty
    string that the [||] of line 146 puts in its place when the array is
    empty, and the array that is left. *)
Definition pop_or_empty (parts : list jsstring) : jsstring := List.last parts [].
Definition popped (parts : list jsstring) : list jsstring := removelast parts.

(** Decimal digits of a non-negative integer, [`${n}`]. *)
Fixpoint digits (u : Decimal.uint) : jsstring :=
  match u with
  | Decimal.Nil => []
  | Decimal.D0 u => 48 :: digits u
  | Decimal.D1 u => 49 :: digits u
  | Decimal.D2 u => 50 :: digits u
  | Decimal.D3 u => 51 :: digits u
  | Decimal.D4 u => 52 :: digits u
  | Decimal.D5 u => 53 :: digits u
  | Decimal.D6 u => 54 :: digits u
  | Decimal.D7 u => 55 :: digits u
  | Decimal.D8 u => 56 :: digits u
  | Decimal.D9 u => 57 :: digits u
  end.

Definition numberToString (n : N) : jsstring := digits (N.to_uint n).

End JS.

Import JS.

(** ** [TextDecoder] (UTF-8, replacement error mode, [stream: true])

    The decoder of the browser, following the Encoding Standard: the UTF-8
    decoder's state and handler, and the serialisation that drops one
    leading byte order mark. *)

Module Encoding.

Record utf8_decoder := {
  code_point : N;
  bytes_seen : N;
  bytes_needed : N;
  lower_boundary : N;
  upper_boundary : N
}.

Definition utf8_start : utf8_decoder :=
  {| code_point := 0; bytes_seen := 0; bytes_needed := 0;
     lower_boundary := 128; upper_boundary := 191 |}.

Inductive result := Continue | CodePoint (c : N) | DecodeError.

Definition between (lo hi b : N) : bool := (lo <=? b) && (b <=? hi).

(** Step 3 of the handler: no sequence is in progress. *)
Definition lead (d : utf8_decoder) (b : N) : utf8_decoder * result :=
  if b <=? 127 then (d, CodePoint b)
  else if between 194 223 b then
    ({| code_point := N.land b 31; bytes_seen := bytes_seen d; bytes_needed := 1;
        lower_boundary := lower_boundary d; upper_boundary := upper_boundary d |},
     Continue)
  else if between 224 239 b then
    ({| code_point := N.land b 15; bytes_seen := bytes_seen d; bytes_needed := 2;
        lower_boundary := if b =? 224 then 160 else lower_boundary d;
        upper_boundary := if b =? 237 then 159 else upper_boundary d |},
     Continue)
  else if between 240 244 b then
    ({| code_point := N.land b 7; bytes_seen := bytes_seen d; bytes_needed := 3;
        lower_boundary := if b =? 240 then 144 else lower_boundary d;
        upper_boundary := if b =? 244 then 143 else upper_boundary d |},
     Continue)
  else (d, DecodeError).

(** The handler on one byte.  A byte outside the boundaries resets the
    state, is restored to the queue and an error is returned; the byte is
    then read again with no sequence in progress: two results for it. *)
Definition handler (d : utf8_decoder) (b : N) : utf8_decoder * list result :=
  if bytes_needed d =? 0 then
    let '(d', r) := lead d b in (d', [r])
  else if negb (between (lower_boundary d) (upper_boundary d) b) then
    let '(d', r) := lead utf8_start b in (d', [DecodeError; r])
  else
    let cp := N.lor (N.shiftl (code_point d) 6) (N.land b 63) in
    let seen := bytes_seen d + 1 in
    if seen =? bytes_needed d then (utf8_start, [CodePoint cp])
    else ({| code_point := cp; bytes_seen := seen; bytes_needed := bytes_needed d;
             lower_boundary := 128; upper_boundary := 191 |}, [Continue]).

(** Scalar values put on the output queue (error mode "replacement"). *)
Definition scalars (rs : list result) : list N :=
  flat_map (fun r => match r with
                     | Continue => []
                     | CodePoint c => [c]
                     | DecodeError => [65533]
                     end) rs.

(** The bytes of a chunk processed one by one. *)
Fixpoint process (d : utf8_decoder) (input : list byte) : utf8_decoder * list N :=
  match input with
  | [] => (d, [])
  | b :: rest =>
      let '(d1, rs) := handler d (Byte.to_N b) in
      let '(d2, out) := process d1 rest in
      (d2, scalars rs ++ out)
  end.

(** A scalar value appended to a JavaScript string. *)
Definition utf16 (c : N) : jsstring :=
  if c <? 65536 then [c]
  else [55296 + N.shiftr (c - 65536) 10; 56320 + N.land (c - 65536) 1023].

(** "Serialize I/O queue": the first scalar value of the stream is dropped
    when it is U+FEFF. *)
Fixpoint serialize (bom_seen : bool) (items : list N) : bool * jsstring :=
  match items with
  | [] => (bom_seen, [])
  | c :: rest =>
      let '(seen, out) := serialize true rest in
      if bom_seen then (seen, utf16 c ++ out)
      else if c =? 65279 then (seen, out)
      else (seen, utf16 c ++ out)
  end.

Record TextDecoder := { decoder : utf8_decoder; BOM_seen : bool }.

(** [new TextDecoder()] *)
Definition new_TextDecoder : TextDecoder :=
  {| decoder := utf8_start; BOM_seen := false |}.

(** [decoder.decode(value, { stream: true })]: the end of the chunk is not
    the end of the stream, so the state of an unfinished sequence is kept. *)
Definition decode (td : TextDecoder) (value : list byte) : TextDecoder * jsstring :=
  let '(d, items) := process (decoder td) value in
  let '(seen, out) := serialize (BOM_seen td) items in
  ({| decoder := d; BOM_seen := seen |}, out).

End Encoding.

Import Encoding.

(** ** The segment parser of the read loop (lines 145-158) *)

Record event := { kind : jsstring; payload : jsstring }.

Definition NN : jsstring := [LF; LF].

(** One iteration of [for (const line of lines)] on [(evt, dataLines)]. *)
Definition parse_line (st : jsstring * list jsstring) (line : jsstring)
  : jsstring * list jsstring :=
  let '(evt, dataLines) := st in
  if startsWith line (lit "event:") then (trim (slice line 6), dataLines)
  else if startsWith line (lit "data:") then (evt, dataLines ++ [trim (slice line 5)])
  else (evt, dataLines).

Definition parse_lines (lines : list jsstring) : jsstring * list jsstring :=
  fold_left parse_line lines (lit "message", []).

(** The body of [for (const chunk of parts)] up to [const data]. *)
Definition parse_segment (chunk : jsstring) : event :=
  let lines := split chunk [LF] in
  let '(evt, dataLines) := parse_lines lines in
  {| kind := evt; payload := join [LF] dataLines |}.

(** Lines 142-146: the text of the chunk is appended to [buf], the buffer is
    cut at the blank lines, the last part stays in [buf]. *)
Definition take_parts (td : TextDecoder) (buf : jsstring) (value : list byte)
  : TextDecoder * jsstring * list jsstring :=
  let '(td', text) := decode td value in
  let parts := split (buf ++ text) NN in
  (td', pop_or_empty parts, popped parts).

(** The events of the successive reads of one stream, in the order in which
    the loop reaches them. *)
Fixpoint parser_loop (td : TextDecoder) (buf : jsstring) (chunks : list (list byte))
  : list event :=
  match chunks with
  | [] => []
  | value :: rest =>
      let '(td', buf', parts) := take_parts td buf value in
      map parse_segment parts ++ parser_loop td' buf' rest
  end.

Definition bytes_of (s : string) : list byte := list_byte_of_string s.
Arguments bytes_of s%_string.

(** ** The page: module variables and DOM elements (lines 8-23) *)

(** A thrown value: an [Error] or a [DOMException], with its name and message. *)
Record exn := { name : jsstring; message : jsstring }.

(** [new Error(msg)] *)
Definition Error (msg : jsstring) : exn := {| name := lit "Error"; message := msg |}.

(** What [fetch] and [reader.read()] reject with once their signal is aborted. *)
Definition AbortError (msg : jsstring) : exn := {| name := lit "AbortError"; message := msg |}.

(** [String(e)], that is [Error.prototype.toString]. *)
Definition String_of_exn (e : exn) : jsstring :=
  match name e, message e with
  | [], m => m
  | n, [] => n
  | n, m => n ++ lit ": " ++ m
  end.

Definition card := jsstring.

(** An element that [document.querySelector] did not find is [None].  A
    button is its [disabled] flag, a box its [textContent]; [cardsBox] and
    [historyBox] keep the list whose [JSON.stringify] text they show.  An
    [AbortController] is the number it was created with; [aborted] lists the
    controllers whose signal has been raised.  [reasonScroll] and
    [answerScroll] are the [scrollTop] of the two boxes as the script last
    assigned it: the scroll height of the box with the text it then held;
    [None] while the script has not assigned it. *)
Record page := {
  RUNTIME_ID : jsstring;
  dialogId : jsstring;
  controller : option nat;
  streaming : bool;
  controllers : nat;
  aborted : list nat;
  sendBtn : option bool;
  stopBtn : option bool;
  reasonBox : option jsstring;
  answerBox : option jsstring;
  historyBox : option (list jsstring);
  cardsBox : option (list card);
  statusEl : option jsstring;
  reasonScroll : option jsstring;
  answerScroll : option jsstring
}.

Definition set_dialogId (v : jsstring) (w : page) : page :=
  {| RUNTIME_ID := RUNTIME_ID w; dialogId := v; controller := controller w;
     streaming := streaming w; controllers := controllers w; aborted := aborted w;
     sendBtn := sendBtn w; stopBtn := stopBtn w; reasonBox := reasonBox w;
     answerBox := answerBox w; historyBox := historyBox w; cardsBox := cardsBox w;
     statusEl := statusEl w;
     reasonScroll := reasonScroll w; answerScroll := answerScroll w |}.

Definition set_streaming (v : bool) (w : page) : page :=
  {| RUNTIME_ID := RUNTIME_ID w; dialogId := dialogId w; controller := controller w;
     streaming := v; controllers := controllers w; aborted := aborted w;
     sendBtn := sendBtn w; stopBtn := stopBtn w; reasonBox := reasonBox w;
     answerBox := answerBox w; historyBox := historyBox w; cardsBox := cardsBox w;
     statusEl := statusEl w;
     reasonScroll := reasonScroll w; answerScroll := answerScroll w |}.

(** [controller = new AbortController()] *)
Definition new_AbortController (w : page) : page :=
  {| RUNTIME_ID := RUNTIME_ID w; dialogId := dialogId w;
     controller := Some (controllers w);
     streaming := streaming w; controllers := S (controllers w); aborted := aborted w;
     sendBtn := sendBtn w; stopBtn := stopBtn w; reasonBox := reasonBox w;
     answerBox := answerBox w; historyBox := historyBox w; cardsBox := cardsBox w;
     statusEl := statusEl w;
     reasonScroll := reasonScroll w; answerScroll := answerScroll w |}.

(** [if (controller) controller.abort()] *)
Definition abort_controller (w : page) : page :=
  match controller w with
  | None => w
  | Some c =>
      {| RUNTIME_ID := RUNTIME_ID w; dialogId := dialogId w; controller := controller w;
         streaming := streaming w; controllers := controllers w;
         aborted := c :: aborted w;
         sendBtn := sendBtn w; stopBtn := stopBtn w; reasonBox := reasonBox w;
         answerBox := answerBox w; historyBox := historyBox w; cardsBox := cardsBox w;
         statusEl := statusEl w;
     reasonScroll := reasonScroll w; answerScroll := answerScroll w |}
  end.

(** [if (sendBtn) sendBtn.disabled = v] *)
Definition set_sendBtn_disabled (v : bool) (w : page) : page :=
  {| RUNTIME_ID := RUNTIME_ID w; dialogId := dialogId w; controller := controller w;
     streaming := streaming w; controllers := controllers w; aborted := aborted w;
     sendBtn := match sendBtn w with Some _ => Some v | None => None end;
     stopBtn := stopBtn w; reasonBox := reasonBox w;
     answerBox := answerBox w; historyBox := historyBox w; cardsBox := cardsBox w;
     statusEl := statusEl w;
     reasonScroll := reasonScroll w; answerScroll := answerScroll w |}.

(** [if (stopBtn) stopBtn.disabled = v] *)
Definition set_stopBtn_disabled (v : bool) (w : page) : page :=
  {| RUNTIME_ID := RUNTIME_ID w; dialogId := dialogId w; controller := controller w;
     streaming := streaming w; controllers := controllers w; aborted := aborted w;
     sendBtn := sendBtn w;
     stopBtn := match stopBtn w with Some _ => Some v | None => None end;
     reasonBox := reasonBox w;
     answerBox := answerBox w; historyBox := historyBox w; cardsBox := cardsBox w;
     statusEl := statusEl w;
     reasonScroll := reasonScroll w; answerScroll := answerScroll w |}.

(** [function setStatus(t)], line 26; its argument is always a string. *)
Definition setStatus (t : jsstring) (w : page) : page :=
  {| RUNTIME_ID := RUNTIME_ID w; dialogId := dialogId w; controller := controller w;
     streaming := streaming w; controllers := controllers w; aborted := aborted w;
     sendBtn := sendBtn w; stopBtn := stopBtn w; reasonBox := reasonBox w;
     answerBox := answerBox w; historyBox := historyBox w; cardsBox := cardsBox w;
     statusEl := match statusEl w with Some _ => Some t | None => None end;
     reasonScroll := reasonScroll w; answerScroll := answerScroll w |}.

(** The two sinks that [appendText] and [clearBox] are called on. *)
Inductive box := ReasonBox | AnswerBox.

Definition set_box (el : box) (f : jsstring -> jsstring) (w : page) : page :=
  {| RUNTIME_ID := RUNTIME_ID w; dialogId := dialogId w; controller := controller w;
     streaming := streaming w; controllers := controllers w; aborted := aborted w;
     sendBtn := sendBtn w; stopBtn := stopBtn w;
     reasonBox := match el with
                  | ReasonBox => option_map f (reasonBox w)
                  | AnswerBox => reasonBox w
                  end;
     answerBox := match el with
                  | ReasonBox => answerBox w
                  | AnswerBox => option_map f (answerBox w)
                  end;
     historyBox := historyBox w; cardsBox := cardsBox w; statusEl := statusEl w;
     reasonScroll := reasonScroll w; answerScroll := answerScroll w |}.

(** [el.scrollTop = el.scrollHeight]: the box is scrolled to the end of the
    text it holds.  Nothing is done on a missing box. *)
Definition scroll_to_end (el : box) (w : page) : page :=
  {| RUNTIME_ID := RUNTIME_ID w; dialogId := dialogId w; controller := controller w;
     streaming := streaming w; controllers := controllers w; aborted := aborted w;
     sendBtn := sendBtn w; stopBtn := stopBtn w; reasonBox := reasonBox w;
     answerBox := answerBox w; historyBox := historyBox w; cardsBox := cardsBox w;
     statusEl := statusEl w;
     reasonScroll := match el, reasonBox w with
                     | ReasonBox, Some text => Some text
                     | _, _ => reasonScroll w
                     end;
     answerScroll := match el, answerBox w with
                     | AnswerBox, Some text => Some text
                     | _, _ => answerScroll w
                     end |}.

(** [function appendText(el, txt)], line 27: on a box that exists, the text
    is appended, then the box is scrolled to its end. *)
Definition appendText (el : box) (txt : jsstring) (w : page) : page :=
  scroll_to_end el (set_box el (fun old => old ++ txt) w).

(** [function clearBox(el)], line 28 *)
Definition clearBox (el : box) (w : page) : page := set_box el (fun _ => []) w.

(** [if (historyBox) historyBox.textContent = ...] *)
Definition show_history (h : list jsstring) (w : page) : page :=
  {| RUNTIME_ID := RUNTIME_ID w; dialogId := dialogId w; controller := controller w;
     streaming := streaming w; controllers := controllers w; aborted := aborted w;
     sendBtn := sendBtn w; stopBtn := stopBtn w; reasonBox := reasonBox w;
     answerBox := answerBox w;
     historyBox := match historyBox w with Some _ => Some h | None => None end;
     cardsBox := cardsBox w; statusEl := statusEl w;
     reasonScroll := reasonScroll w; answerScroll := answerScroll w |}.

(** [if (cardsBox) cardsBox.textContent = ...] *)
Definition show_cards (cards : list card) (w : page) : page :=
  {| RUNTIME_ID := RUNTIME_ID w; dialogId := dialogId w; controller := controller w;
     streaming := streaming w; controllers := controllers w; aborted := aborted w;
     sendBtn := sendBtn w; stopBtn := stopBtn w; reasonBox := reasonBox w;
     answerBox := answerBox w; historyBox := historyBox w;
     cardsBox := match cardsBox w with Some _ => Some cards | None => None end;
     statusEl := statusEl w;
     reasonScroll := reasonScroll w; answerScroll := answerScroll w |}.

(** Status texts, as code units. *)
Definition txt_connecting : jsstring := [36830; 25509; 20013; 8230].
Definition txt_request_failed : jsstring := [35831; 27714; 22833; 36133; 65306].
Definition txt_streaming : jsstring := [27969; 24335; 20013; 8230].
Definition txt_connected_meta : jsstring :=
  [24050; 36830; 25509; 65288] ++ lit "meta" ++ [65289].
Definition txt_error : jsstring := [38169; 35823; 65306].
Definition txt_done : jsstring := [23436; 25104].
Definition txt_interrupted : jsstring := [36830; 25509; 20013; 26029; 65306].
Definition txt_stopped : jsstring := [24050; 20572; 27490].
Definition txt_session_ready : jsstring := [20250; 35805; 23601; 32490; 65306].

(** ** Requests *)

Definition API_BASE : jsstring := [].

(** [function api(path)], line 30 *)
Definition api (path : jsstring) : jsstring := API_BASE ++ path.

(** One constructor per [fetch] of the script, with the fields of its body
    or query and, for the stream, the controller whose signal it was given. *)
Inductive request :=
  | GET_cards
  | GET_cards_fallback
  | POST_init (runtime_id : jsstring) (cards : list card)
  | GET_history (runtime_id dialog_id : jsstring)
  | POST_stop (runtime_id dialog_id : jsstring)
  | POST_stream (runtime_id dialog_id user_text : jsstring) (temperature top_p : Q)
                (signal : nat).

(** The path each request goes to (without the query). *)
Definition url (r : request) : jsstring :=
  match r with
  | GET_cards => lit "/static/Cards.json"
  | GET_cards_fallback => lit "./Cards.json"
  | POST_init _ _ => api (lit "/api/dialog/init")
  | GET_history _ _ => api (lit "/api/history")
  | POST_stop _ _ => api (lit "/api/chat/stop")
  | POST_stream _ _ _ _ _ _ => api (lit "/api/chat/stream")
  end.

Definition jsstring_eqb (a b : jsstring) : bool :=
  (List.length a =? List.length b)%nat && forallb (fun p => fst p =? snd p) (combine a b).

Definition is_stream_request (r : request) : bool :=
  jsstring_eqb (url r) (lit "/api/chat/stream").

Definition is_history_request (r : request) : bool :=
  jsstring_eqb (url r) (lit "/api/history").

(** ** The async functions as resumable tasks

    A call runs to its first [await]; the task is then resumed with what the
    awaited promise settles with and runs to its next [await] or to its end.
    A [fetch] and the [json()] of its response are one suspension point, and
    so are an async function of the script and the caller that awaits it. *)

Record args := { userText : jsstring; temperature : Q; top_p : Q }.

(** [startStream(text)] with the default parameters of line 99. *)
Definition default_args (text : jsstring) : args :=
  {| userText := text; temperature := 2 # 10; top_p := 95 # 100 |}.

Inductive outcome := Fulfilled | Rejected (e : exn).

(** What a pending [await] settles with.  [Cards] carries the value of
    [js?.cards || js || []]; [InitReply] the [ok] of the response and the
    fields [ok], [error], [dialog_id] of its body; [StreamReply] the status
    and whether the response has a body; [ReadChunk] and [ReadDone] are the
    two results of [reader.read()]. *)
Inductive settled :=
  | Rejects (e : exn)
  | Cards (cards : list card)
  | InitReply (r_ok js_ok : bool) (js_error : option jsstring) (js_dialog_id : jsstring)
  | StreamReply (status : N) (body : bool)
  | ReadChunk (value : list byte)
  | ReadDone
  | HistoryReply (history : list jsstring)
  | StopReply.

(** The suspension points: of [startStream] with the [initDialog] and
    [loadCards] it awaits (lines 42, 60-65, 111, 140, 179) and of
    [stopStream] (line 86). *)
Inductive pc :=
  | AwaitCards (a : args)
  | AwaitCardsFallback (a : args)
  | AwaitInit (a : args)
  | AwaitStream (signal : nat)
  | AwaitRead (signal : nat) (decoder : TextDecoder) (buf : jsstring)
  | AwaitHistory
  | AwaitStop
  | Settled (o : outcome).

(** [res.ok]: a status in the range 200-299. *)
Definition Response_ok (status : N) : bool := (200 <=? status) && (status <=? 299).

(** A string is truthy when it is not empty. *)
Definition truthy (s : jsstring) : bool :=
  match s with
  | [] => false
  | _ :: _ => true
  end.

(** [x || d] for a value that is a string or absent. *)
Definition or_else (x : option jsstring) (d : jsstring) : jsstring :=
  match x with
  | Some s => if truthy s then s else d
  | None => d
  end.

(** Lines 160-173: the routing of one event. *)
Definition dispatch (w : page) (ev : event) : page :=
  let evt := kind ev in
  let data := payload ev in
  if jsstring_eqb evt (lit "meta") then setStatus txt_connected_meta w
  else if jsstring_eqb evt (lit "reason") then
    appendText ReasonBox (replaceAll data (lit "\n") [LF]) w
  else if jsstring_eqb evt (lit "answer") then
    appendText AnswerBox (replaceAll data (lit "\n") [LF]) w
  else if jsstring_eqb evt (lit "error") then setStatus (txt_error ++ data) w
  else if jsstring_eqb evt (lit "done") then
    set_stopBtn_disabled true
      (set_sendBtn_disabled false (set_streaming false (setStatus txt_done w)))
  else w.

(** Lines 147-174: [for (const chunk of parts)]. *)
Definition dispatch_parts (w : page) (parts : list jsstring) : page :=
  fold_left (fun w chunk => dispatch w (parse_segment chunk)) parts w.

(** Lines 102-122 of [startStream]. *)
Definition connect (a : args) (w : page) : page * pc * list request :=
  let w := clearBox ReasonBox w in
  let w := clearBox AnswerBox w in
  let w := setStatus txt_connecting w in
  let w := set_sendBtn_disabled true w in
  let signal := controllers w in
  let w := new_AbortController w in
  let w := set_streaming true w in
  let w := set_stopBtn_disabled false w in
  (w, AwaitStream signal,
   [POST_stream (RUNTIME_ID w) (dialogId w) (userText a) (temperature a) (top_p a) signal]).

(** A call of [loadCards], up to its first [await], line 42. *)
Definition loadCards (a : args) (w : page) : page * pc * list request :=
  (w, AwaitCards a, [GET_cards]).

(** A call of [initDialog]: it awaits [loadCards] first, line 54. *)
Definition initDialog (a : args) (w : page) : page * pc * list request :=
  loadCards a w.

(** A call of [startStream], up to its first [await]. *)
Definition startStream (a : args) (w : page) : page * pc * list request :=
  if truthy (dialogId w) then connect a w else initDialog a w.

(** A call of [stopStream], up to its [await]. *)
Definition stopStream (w : page) : page * pc * list request :=
  let w := abort_controller w in
  (w, AwaitStop, [POST_stop (RUNTIME_ID w) (dialogId w)]).

(** Lines 43-49 and 55-64: [loadCards] shows and returns the cards, and
    [initDialog] posts them. *)
Definition initDialog_post (a : args) (cards : list card) (w : page)
  : page * pc * list request :=
  (show_cards cards w, AwaitInit a, [POST_init (RUNTIME_ID w) cards]).

(** Lines 124-130. *)
Definition request_failed (status : N) (w : page) : page :=
  set_stopBtn_disabled true
    (set_sendBtn_disabled false
       (set_streaming false (setStatus (txt_request_failed ++ numberToString status) w))).

(** The [finally] block after [loadHistory] has settled, lines 180-182. *)
Definition finally_reset (w : page) : page :=
  set_stopBtn_disabled true (set_sendBtn_disabled false (set_streaming false w)).

(** A call of [loadHistory], up to its [await], lines 74-75; the [finally]
    block of line 179 makes it. *)
Definition loadHistory (w : page) : page * pc * list request :=
  (w, AwaitHistory, [GET_history (RUNTIME_ID w) (dialogId w)]).

(** Lines 92-95 of [stopStream]. *)
Definition stopped (w : page) : page :=
  set_stopBtn_disabled true
    (set_sendBtn_disabled false (setStatus txt_stopped (set_streaming false w))).

(** A task resumed at its suspension point; [None] when the value is not one
    the awaited promise can settle with. *)
Definition resume (w : page) (p : pc) (r : settled) : option (page * pc * list request) :=
  match p, r with
  | AwaitCards a, Cards cards => Some (initDialog_post a cards w)
  | AwaitCards a, Rejects _ => Some (w, AwaitCardsFallback a, [GET_cards_fallback])
  | AwaitCardsFallback a, Cards cards => Some (initDialog_post a cards w)
  | AwaitCardsFallback a, Rejects _ => Some (initDialog_post a [] w)
  | AwaitInit a, InitReply r_ok js_ok js_error js_dialog_id =>
      if negb r_ok || negb js_ok
      then Some (w, Settled (Rejected (Error (or_else js_error (lit "init failed")))), [])
      else
        let w := set_dialogId js_dialog_id w in
        let w := setStatus (txt_session_ready ++ dialogId w) w in
        Some (connect a w)
  | AwaitInit a, Rejects e => Some (w, Settled (Rejected e), [])
  | AwaitStream signal, StreamReply status body =>
      if negb (Response_ok status) || negb body
      then Some (request_failed status w, Settled Fulfilled, [])
      else Some (setStatus txt_streaming w, AwaitRead signal new_TextDecoder [], [])
  | AwaitStream signal, Rejects e => Some (w, Settled (Rejected e), [])
  | AwaitRead signal td buf, ReadChunk value =>
      let '(td', buf', parts) := take_parts td buf value in
      Some (dispatch_parts w parts, AwaitRead signal td' buf', [])
  | AwaitRead signal td buf, ReadDone => Some (loadHistory w)
  | AwaitRead signal td buf, Rejects e =>
      Some (loadHistory
              (if streaming w then setStatus (txt_interrupted ++ String_of_exn e) w else w))
  | AwaitHistory, HistoryReply h => Some (finally_reset (show_history h w), Settled Fulfilled, [])
  | AwaitHistory, Rejects _ => Some (finally_reset w, Settled Fulfilled, [])
  | AwaitStop, StopReply => Some (stopped w, Settled Fulfilled, [])
  | AwaitStop, Rejects _ => Some (stopped w, Settled Fulfilled, [])
  | _, _ => None
  end.

(** The runs of one task.  [run p rs reqs w' p']: resumed with the values
    [rs] one after the other, the task goes from [p] to [p'], sends [reqs],
    and its last piece of code leaves the page [w'].  Every piece starts in
    a page of its own: between two of them other tasks and handlers run. *)
Inductive run : pc -> list settled -> list request -> page -> pc -> Prop :=
  | run_last w p r w' p' reqs :
      resume w p r = Some (w', p', reqs) ->
      run p [r] reqs w' p'
  | run_more w p r w1 p1 reqs1 rs reqs w2 p2 :
      resume w p r = Some (w1, p1, reqs1) ->
      run p1 rs reqs w2 p2 ->
      run p (r :: rs) (reqs1 ++ reqs) w2 p2.

(** ** The event loop: one page, the tasks in flight, the requests sent *)

Record system := {
  browser : page;
  tasks : list pc;
  sent : list (nat * request)
}.

Inductive action :=
  | Call_startStream (a : args)
  | Call_stopStream
  | Settle (task : nat) (r : settled).

Definition raised (w : page) (signal : nat) : bool :=
  existsb (Nat.eqb signal) (aborted w).

Definition is_AbortError (r : settled) : bool :=
  match r with
  | Rejects e => jsstring_eqb (name e) (lit "AbortError")
  | _ => false
  end.

(** A [fetch] or [read] whose signal has been raised can only reject with
    an [AbortError]. *)
Definition admissible (w : page) (p : pc) (r : settled) : bool :=
  match p with
  | AwaitStream signal | AwaitRead signal _ _ =>
      if raised w signal then is_AbortError r else true
  | _ => true
  end.

Definition spawn (s : system) (out : page * pc * list request) : system :=
  let '(w, p, reqs) := out in
  {| browser := w;
     tasks := tasks s ++ [p];
     sent := sent s ++ map (pair (List.length (tasks s))) reqs |}.

Definition step (s : system) (a : action) : option system :=
  match a with
  | Call_startStream a => Some (spawn s (startStream a (browser s)))
  | Call_stopStream => Some (spawn s (stopStream (browser s)))
  | Settle i r =>
      match tasks s !! i with
      | None => None
      | Some p =>
          if admissible (browser s) p r then
            match resume (browser s) p r with
            | None => None
            | Some (w, p', reqs) =>
                Some {| browser := w;
                        tasks := <[i := p']> (tasks s);
                        sent := sent s ++ map (pair i) reqs |}
            end
          else None
      end
  end.

Fixpoint exec (s : system) (acts : list action) : option system :=
  match acts with
  | [] => Some s
  | a :: rest =>
      match step s a with
      | None => None
      | Some s' => exec s' rest
      end
  end.

(** A task resumed with the chunks of a body, one read after the other. *)
Fixpoint feed (w : page) (p : pc) (chunks : list (list byte)) : option (page * pc) :=
  match chunks with
  | [] => Some (w, p)
  | value :: rest =>
      match resume w p (ReadChunk value) with
      | Some (w', p', _) => feed w' p' rest
      | None => None
      end
  end.

(** The tasks that are reading a response body. *)
Definition reading (p : pc) : bool :=
  match p with
  | AwaitRead _ _ _ => true
  | _ => false
  end.

(** ** Vocabulary of the statements *)

(** The text a whole body decodes to. *)
Definition decoded (bytes : list byte) : jsstring := snd (decode new_TextDecoder bytes).

(** A segment is well framed when it holds no blank line and does not end
    with a line feed; [frame] closes each segment with a blank line. *)
Fixpoint blank_free (s : jsstring) : bool :=
  match s with
  | [] => true
  | a :: r =>
      match r with
      | [] => true
      | b :: _ => negb ((a =? LF) && (b =? LF)) && blank_free r
      end
  end.

Definition ends_with_LF (s : jsstring) : bool := List.last s 0 =? LF.

Definition well_framed (s : jsstring) : bool := blank_free s && negb (ends_with_LF s).

Definition frame (segs : list jsstring) : jsstring := flat_map (fun s => s ++ NN) segs.

(** ** Blank lines in the bytes and in the text *)

(** The bytes as numbers, and a body made of byte segments each closed by
    two line feed bytes. *)
Definition units (bytes : list byte) : jsstring := map Byte.to_N bytes.

Definition byte_frame (bsegs : list (list byte)) : list byte :=
  flat_map (fun b => b ++ [x0a; x0a]) bsegs.

(** The lengths of the maximal runs of line feeds of a string, in order;
    [cur] line feeds have just been passed. *)
Definition close_run (cur : nat) : list nat :=
  match cur with
  | O => []
  | S _ => [cur]
  end.

Fixpoint lfruns (cur : nat) (s : jsstring) : list nat :=
  match s with
  | [] => close_run cur
  | c :: r => if c =? LF then lfruns (S cur) r else close_run cur ++ lfruns 0 r
  end.

(** The blank lines a left-to-right search finds in runs of these lengths. *)
Definition halves (runs : list nat) : nat := list_sum (map Nat.div2 runs).

(** No sequence is in progress. *)
Definition idle (d : utf8_decoder) : bool := bytes_needed d =? 0.

(** The states the decoder can be in: the start state, or a sequence in
    progress whose boundaries exclude the line feed and whose code point
    cannot end up below 128. *)
Definition sound (d : utf8_decoder) : bool :=
  if idle d then
    (code_point d =? 0) && (bytes_seen d =? 0)
    && (lower_boundary d =? 128) && (upper_boundary d =? 191)
  else
    (10 <? lower_boundary d)
    && (negb (code_point d =? 0)
        || ((144 <=? lower_boundary d) && (upper_boundary d <=? 191)
            && (bytes_seen d + 2 <=? bytes_needed d))).

(** What a byte other than the line feed leads to from the start state. *)
Definition lead_ok (x : byte) : bool :=
  let '(d, r) := lead utf8_start (Byte.to_N x) in
  sound d
  && match r with
     | Continue => negb (idle d)
     | CodePoint c => negb (c =? LF) && negb (c =? 65279) && (c <? 65536) && idle d
     | DecodeError => idle d
     end.

(** A byte segment is well framed when its bytes hold no two line feeds in
    a row and do not end with one. *)
Definition byte_well_framed (b : list byte) : bool := well_framed (units b).

(** "If the button is there, it is enabled", and likewise disabled. *)
Definition send_enabled (w : page) : Prop := sendBtn w <> Some true.
Definition stop_disabled (w : page) : Prop := stopBtn w <> Some false.

(** A page with every element present, a session open and nothing running. *)
Definition idle_page : page :=
  {| RUNTIME_ID := lit "run-1"; dialogId := lit "d1"; controller := None;
     streaming := false; controllers := 0%nat; aborted := [];
     sendBtn := Some false; stopBtn := Some true;
     reasonBox := Some []; answerBox := Some [];
     historyBox := Some []; cardsBox := Some []; statusEl := Some [];
     reasonScroll := None; answerScroll := None |}.

Definition idle_system : system := {| browser := idle_page; tasks := []; sent := [] |}.

(** One segment as it is sent: an [event:] line, a [data:] line, a blank line. *)
Definition sse (evt data : string) : list byte :=
  bytes_of "event: " ++ bytes_of evt ++ [x0a] ++ bytes_of "data: " ++ bytes_of data ++ [x0a; x0a].
Arguments sse (evt data)%_string.

(** The same page before the session is opened. *)
Definition unopened_page : page := set_dialogId [] idle_page.

(** The body of the scenario: one [reason] segment whose data holds an
    escaped line feed (a backslash and the letter n). *)
Definition scenario_input : list byte :=
  bytes_of "event: reason" ++ [x0a] ++ bytes_of "data: hello\nworld" ++ [x0a; x0a].

(** A body of two segments, the first with two characters of three bytes
    each, and a cutting of it inside a marker and inside a character. *)
Definition sample_segments : list jsstring :=
  [ lit "event: answer" ++ [LF] ++ lit "data: " ++ [20320; 22909];
    lit "event: done" ++ [LF] ++ lit "data: x" ].

Definition sample_byte_segments : list (list byte) :=
  [ bytes_of "event: answer" ++ [x0a] ++ bytes_of "data: "
      ++ [xe4; xbd; xa0; xe5; xa5; xbd];
    bytes_of "event: done" ++ [x0a] ++ bytes_of "data: x" ].

Definition sample_chunks : list (list byte) :=
  [ bytes_of "eve";
    bytes_of "nt: answer" ++ [x0a] ++ bytes_of "data: " ++ [xe4];
    [xbd; xa0; xe5; xa5; xbd; x0a];
    [x0a] ++ bytes_of "event: do";
    bytes_of "ne" ++ [x0a] ++ bytes_of "data: x" ++ [x0a; x0a] ].

(** Two calls of [startStream], the second while the first is reading. *)
Definition first_stream : list action :=
  [ Call_startStream (default_args (lit "a"));
    Settle 0 (StreamReply 200 true);
    Settle 0 (ReadChunk (sse "answer" "A1")) ].

Definition overlapping_streams : list action :=
  first_stream ++
  [ Call_startStream (default_args (lit "b"));
    Settle 1 (StreamReply 200 true);
    Settle 1 (ReadChunk (sse "answer" "B1"));
    Settle 0 (ReadChunk (sse "answer" "A2")) ].

(** The system after [first_stream]. *)
Definition one_stream_reading : system :=
  match exec idle_system first_stream with
  | Some s => s
  | None => idle_system
  end.

(** The system after [overlapping_streams]. *)
Definition two_streams_reading : system :=
  match exec idle_system overlapping_streams with
  | Some s => s
  | None => idle_system
  end.

(** The suspension points at which the streaming request is yet to be sent. *)
Definition before_connect (p : pc) : bool :=
  match p with
  | AwaitCards _ | AwaitCardsFallback _ | AwaitInit _ => true
  | _ => false
  end.


(** A string that does not begin with white space. *)
Definition starts_black (s : jsstring) : Prop :=
  match s with
  | [] => True
  | c :: _ => isWhiteSpace c = false
  end.

(** ** More of the script: the reply of the initialisation, the handlers *)

(** Lines 66-68 of [initDialog], on the reply: the error it throws, or the
    page with the dialog stored and announced. *)
Definition initDialog_reply (r_ok js_ok : bool) (js_error : option jsstring)
    (js_dialog_id : jsstring) (w : page) : exn + page :=
  if negb r_ok || negb js_ok then inl (Error (or_else js_error (lit "init failed")))
  else
    let w := set_dialogId js_dialog_id w in
    inr (setStatus (txt_session_ready ++ dialogId w) w).

(** The status text of the [catch] of line 193. *)
Definition txt_init_failed : jsstring :=
  [21021; 22987; 21270; 22833; 36133; 65288; 21518; 31471; 19981; 21487; 36798;
   65311; 65289].

(** The handler of [DOMContentLoaded], lines 187-216: its suspension points
    and its end, where the listeners are registered; [warned] is what
    [console.warn] was given. *)
Inductive boot_pc :=
  | BootCards
  | BootCardsFallback
  | BootInit
  | BootHistory
  | BootReady (warned : option exn).

(** The handler called, up to its first [await] (in [loadCards]). *)
Definition boot (w : page) : page * boot_pc * list request :=
  (w, BootCards, [GET_cards]).

Definition boot_resume (w : page) (p : boot_pc) (r : settled)
  : option (page * boot_pc * list request) :=
  match p, r with
  | BootCards, Cards cards =>
      Some (show_cards cards w, BootInit, [POST_init (RUNTIME_ID w) cards])
  | BootCards, Rejects _ => Some (w, BootCardsFallback, [GET_cards_fallback])
  | BootCardsFallback, Cards cards =>
      Some (show_cards cards w, BootInit, [POST_init (RUNTIME_ID w) cards])
  | BootCardsFallback, Rejects _ =>
      Some (show_cards [] w, BootInit, [POST_init (RUNTIME_ID w) []])
  | BootInit, InitReply r_ok js_ok js_error js_dialog_id =>
      match initDialog_reply r_ok js_ok js_error js_dialog_id w with
      | inl e => Some (setStatus txt_init_failed w, BootReady (Some e), [])
      | inr w' => Some (w', BootHistory, snd (loadHistory w'))
      end
  | BootInit, Rejects e => Some (setStatus txt_init_failed w, BootReady (Some e), [])
  | BootHistory, HistoryReply h => Some (show_history h w, BootReady None, [])
  | BootHistory, Rejects _ => Some (w, BootReady None, [])
  | _, _ => None
  end.

(** The handler run to the end of the replies.  Until it ends no listener is
    registered, so nothing of the page runs in between. *)
Fixpoint boot_exec (w : page) (p : boot_pc) (rs : list settled)
  : option (page * boot_pc * list request) :=
  match rs with
  | [] => Some (w, p, [])
  | r :: rest =>
      match boot_resume w p r with
      | None => None
      | Some (w1, p1, reqs1) =>
          match boot_exec w1 p1 rest with
          | None => None
          | Some (w2, p2, reqs2) => Some (w2, p2, reqs1 ++ reqs2)
          end
      end
  end.

(** The click handler of the send button, lines 197-201, on the value of
    the input box ([None] when the page has no input box): [None] when it
    returns without a call of [startStream]. *)
Definition send_click (value : option jsstring) (w : page)
  : option (page * pc * list request) :=
  let text := trim (or_else value []) in
  if truthy text then Some (startStream (default_args text) w) else None.

(** A keyboard event: [e.key] and [e.shiftKey]. *)
Record key_event := { key : jsstring; shiftKey : bool }.

(** The [keydown] handler of the input box, lines 204-211: whether
    [preventDefault] was called, and the call of [startStream] if any. *)
Definition input_keydown (e : key_event) (value : jsstring) (w : page)
  : bool * option (page * pc * list request) :=
  if jsstring_eqb (key e) (lit "Enter") && negb (shiftKey e) then
    let text := trim (or_else (Some value) []) in
    (true, if truthy text then Some (startStream (default_args text) w) else None)
  else (false, None).

(** ** More vocabulary *)

(** The five kinds the router knows. *)
Definition known_kind (k : jsstring) : bool :=
  jsstring_eqb k (lit "meta") || jsstring_eqb k (lit "reason")
  || jsstring_eqb k (lit "answer") || jsstring_eqb k (lit "error")
  || jsstring_eqb k (lit "done").

(** The lines a segment is read from. *)
Definition is_event_line (line : jsstring) : bool := startsWith line (lit "event:").
Definition is_data_line (line : jsstring) : bool := startsWith line (lit "data:").

(** An escaped line feed, a backslash followed by the letter n, somewhere
    in a string. *)
Fixpoint has_escape (s : jsstring) : bool :=
  match s with
  | [] => false
  | a :: r =>
      match r with
      | [] => false
      | b :: _ => ((a =? 92) && (b =? 110)) || has_escape r
      end
  end.

(** [old] is the start of [new]: text was only appended. *)
Definition extends (old new : option jsstring) : Prop :=
  exists suffix, new = option_map (fun t => t ++ suffix) old.

(** The session, the controllers and the two lists are what the page had. *)
Definition same_session (w w' : page) : Prop :=
  RUNTIME_ID w' = RUNTIME_ID w /\ dialogId w' = dialogId w
  /\ controller w' = controller w /\ controllers w' = controllers w
  /\ aborted w' = aborted w
  /\ historyBox w' = historyBox w /\ cardsBox w' = cardsBox w.

(** The signal a task gave to its streaming request. *)
Definition signal_of (p : pc) : option nat :=
  match p with
  | AwaitStream signal | AwaitRead signal _ _ => Some signal
  | _ => None
  end.

(** The signals the tasks hold are those of controllers that were created
    ([n] of them so far), and no two tasks hold the same. *)
Definition signals_apart (n : nat) (ts : list pc) : Prop :=
  (forall i p c, ts !! i = Some p -> signal_of p = Some c -> (c < n)%nat)
  /\ (forall i j p q c, ts !! i = Some p -> ts !! j = Some q ->
                        signal_of p = Some c -> signal_of q = Some c -> i = j).

(** The controllers are numbered in the order of their creation: the current
    one is the last created, and the tasks hold different ones, all created. *)
Definition numbered (s : system) : Prop :=
  match controller (browser s) with
  | None => controllers (browser s) = 0%nat
  | Some c => controllers (browser s) = S c
  end
  /\ signals_apart (controllers (browser s)) (tasks s).

(** The runtime identifier a request carries. *)
Definition runtime_id_of (r : request) : option jsstring :=
  match r with
  | GET_cards | GET_cards_fallback => None
  | POST_init rid _ | GET_history rid _ | POST_stop rid _
  | POST_stream rid _ _ _ _ _ => Some rid
  end.

Definition carries (rid : jsstring) (r : request) : Prop :=
  match runtime_id_of r with
  | None => True
  | Some x => x = rid
  end.

(** The elements the page has are the ones it had. *)
Definition present {A} (el : option A) : bool :=
  match el with
  | Some _ => true
  | None => false
  end.

Definition same_elements (w w' : page) : Prop :=
  present (sendBtn w') = present (sendBtn w)
  /\ present (stopBtn w') = present (stopBtn w)
  /\ present (reasonBox w') = present (reasonBox w)
  /\ present (answerBox w') = present (answerBox w)
  /\ present (historyBox w') = present (historyBox w)
  /\ present (cardsBox w') = present (cardsBox w)
  /\ present (statusEl w') = present (statusEl w).

(** The cards [initDialog] posts after these replies of the card files:
    those of the first file that answered, none when both failed. *)
Definition cards_from (replies : list settled) : list card :=
  match replies with
  | [Cards cards] => cards
  | [Rejects _; Cards cards] => cards
  | _ => []
  end.

(** The requests for the card files that go with these replies. *)
Definition card_requests (replies : list settled) : list request :=
  match replies with
  | [_] => [GET_cards]
  | _ => [GET_cards; GET_cards_fallback]
  end.

(** The three orders in which, after a call of [stopStream], the stop
    request of task [j] is answered, the read of task [i] is rejected and
    the history request of task [i] is answered. *)
Definition stop_orders (i j : nat) (e : exn) (stop_reply history_reply : settled)
  : list (list action) :=
  [ [Settle j stop_reply; Settle i (Rejects e); Settle i history_reply];
    [Settle i (Rejects e); Settle j stop_reply; Settle i history_reply];
    [Settle i (Rejects e); Settle i history_reply; Settle j stop_reply] ].

(** What the reply to the history request changes on the page, lines 75-77:
    the history box when the request succeeded, nothing when it failed. *)
Definition history_shown (r : settled) (w : page) : page :=
  match r with
  | HistoryReply h => show_history h w
  | _ => w
  end.

(** * Properties *)

(** What a resumed task became: the page, the next suspension point and the
    requests are read off the equation, case by case. *)
Ltac resumed H :=
  cbn in H;
  repeat match type of H with
         | context [take_parts ?td ?buf ?v] =>
             destruct (take_parts td buf v) as [[? ?] ?]
         | context [negb ?a || negb ?b] => destruct (negb a || negb b)
         end;
  first [discriminate H | injection H as <- <- <-].

(** ** The primitives on examples *)

Example split_three_line_feeds :
  split (lit "a" ++ [LF; LF; LF] ++ lit "b" ++ [LF; LF]) NN
  = [lit "a"; LF :: lit "b"; []].
Proof. reflexivity. Qed.

Example split_lines :
  split (lit "event: x" ++ [LF] ++ lit "data: y" ++ [LF]) [LF]
  = [lit "event: x"; lit "data: y"; []].
Proof. reflexivity. Qed.

Example trim_both_ends : trim ([9; 32] ++ lit "a  b" ++ [13; 32]) = lit "a  b".
Proof. reflexivity. Qed.

Example replaceAll_escaped :
  replaceAll (lit "a\nb\\nc") (lit "\n") [LF] = lit "a" ++ [LF] ++ lit "b\" ++ [LF] ++ lit "c".
Proof. reflexivity. Qed.

(** A character of three bytes cut after its first byte, behind a byte
    order mark: nothing comes out of the first chunk. *)
Example decode_in_two_chunks :
  let '(td1, o1) := decode new_TextDecoder [xef; xbb; xbf; xe4] in
  let '(td2, o2) := decode td1 [xbd; xa0; x0a] in
  o1 = [] /\ o2 = [20320; LF] /\ decoder td2 = utf8_start.
Proof. vm_compute. repeat split. Qed.

(** A sequence cut short by a line feed gives U+FFFD, then the line feed. *)
Example decode_truncated : decoded [xe4; x0a; xf0; x9f; x98; x80]
                           = [65533; LF; 55357; 56832].
Proof. reflexivity. Qed.

(** ** Splitting at blank lines *)

Lemma split_go_nonempty sep k s : split_go sep k s <> [].
Proof.
  revert k. induction s as [|c r IH]; intros k; simpl; [discriminate|].
  destruct k; [|apply IH].
  destruct (startsWith (c :: r) sep); [discriminate|].
  specialize (IH 0%nat). destruct (split_go sep 0 r); [contradiction|discriminate].
Qed.

Lemma split_nonempty s sep : split s sep <> [].
Proof. apply split_go_nonempty. Qed.

Lemma split_NN_nil : split [] NN = [[]].
Proof. reflexivity. Qed.

Lemma split_NN_one a : split [a] NN = [[a]].
Proof.
  unfold split, NN. cbn [split_go startsWith cons_head].
  rewrite andb_false_r. reflexivity.
Qed.

Lemma split_NN_two a b r :
  split (a :: b :: r) NN =
  if (a =? LF) && (b =? LF) then [] :: split r NN
  else cons_head a (split (b :: r) NN).
Proof.
  unfold split, NN. cbn [split_go startsWith List.length Nat.pred].
  rewrite andb_true_r, (N.eqb_sym LF a), (N.eqb_sym LF b).
  destruct ((a =? LF) && (b =? LF)) eqn:E; [|reflexivity].
  apply andb_true_iff in E as [_ Eb]. apply N.eqb_eq in Eb. subst b.
  reflexivity.
Qed.

(** A part of a string that was not cut starts with the string's first
    code unit. *)
Lemma split_NN_single_head b r x :
  split (b :: r) NN = [x] -> exists x', x = b :: x'.
Proof.
  destruct r as [|c r].
  - rewrite split_NN_one. intros [= <-]. eauto.
  - rewrite split_NN_two. destruct ((b =? LF) && (c =? LF)).
    + intros [= _ H]. exfalso. exact (split_nonempty _ _ H).
    + destruct (split (c :: r) NN) as [|y ys]; simpl; intros H;
        injection H as <-; eauto.
Qed.

Lemma removelast_cons_head a (X : list jsstring) :
  X <> [] ->
  match X with
  | [x] => removelast (cons_head a X) = [] /\ List.last (cons_head a X) [] = a :: x
  | _ => removelast (cons_head a X) = cons_head a (removelast X)
         /\ List.last (cons_head a X) [] = List.last X []
  end.
Proof.
  destruct X as [|x [|y X]]; [contradiction| |]; intros _; split; reflexivity.
Qed.

(** The parts of [s ++ t] are the parts of [s] but the last, then the parts
    of that last one followed by [t]: what the loop does when [t] arrives
    after [s]. *)
Lemma split_NN_app_both s :
  (forall t, split (s ++ t) NN =
             popped (split s NN) ++ split (pop_or_empty (split s NN) ++ t) NN)
  /\ (forall a t, split ((a :: s) ++ t) NN =
             popped (split (a :: s) NN)
             ++ split (pop_or_empty (split (a :: s) NN) ++ t) NN).
Proof.
  unfold popped, pop_or_empty.
  induction s as [|b r [IHr IHbr]].
  - split; [reflexivity|]. intros a t. rewrite split_NN_one. reflexivity.
  - split; [apply IHbr|]. intros a t.
    change ((a :: b :: r) ++ t) with (a :: b :: (r ++ t)).
    rewrite !split_NN_two.
    destruct ((a =? LF) && (b =? LF)) eqn:E.
    + rewrite IHr.
      pose proof (split_nonempty r NN) as Hne.
      destruct (split r NN) as [|x X]; [contradiction|]. reflexivity.
    + change (b :: r ++ t) with ((b :: r) ++ t). rewrite IHbr.
      pose proof (split_nonempty (b :: r) NN) as Hne.
      pose proof (removelast_cons_head a _ Hne) as Hc.
      destruct (split (b :: r) NN) as [|x [|y X]] eqn:EX; [contradiction| |].
      * destruct Hc as [-> ->].
        destruct (split_NN_single_head _ _ _ EX) as [x' ->].
        cbn [removelast List.last app].
        change (a :: b :: x' ++ t) with (a :: b :: (x' ++ t)).
        rewrite split_NN_two, E. reflexivity.
      * destruct Hc as [-> ->].
        cbn [removelast cons_head app]. reflexivity.
Qed.

Lemma split_NN_app s t :
  split (s ++ t) NN =
  popped (split s NN) ++ split (pop_or_empty (split s NN) ++ t) NN.
Proof. apply split_NN_app_both. Qed.

Lemma last_app_nonempty (X Y : list jsstring) :
  Y <> [] -> List.last (X ++ Y) [] = List.last Y [].
Proof.
  intros HY. induction X as [|x X IH]; [reflexivity|].
  simpl. destruct (X ++ Y) eqn:E; [|exact IH].
  apply app_eq_nil in E as [_ ->]. contradiction.
Qed.

Lemma removelast_app_nonempty (X Y : list jsstring) :
  Y <> [] -> removelast (X ++ Y) = X ++ removelast Y.
Proof. intros HY. apply removelast_app. exact HY. Qed.

(** A well-framed segment closed by a blank line is cut off whole. *)
Lemma split_NN_framed s t :
  well_framed s = true -> split (s ++ NN ++ t) NN = s :: split t NN.
Proof.
  unfold well_framed, ends_with_LF.
  induction s as [|a s IH]; intros H.
  - change ([] ++ NN ++ t) with (LF :: LF :: t).
    rewrite split_NN_two. reflexivity.
  - destruct s as [|b r].
    + simpl in H. apply negb_true_iff in H.
      change ([a] ++ NN ++ t) with (a :: LF :: LF :: t).
      rewrite split_NN_two, H. cbn [andb].
      rewrite split_NN_two. reflexivity.
    + apply andb_true_iff in H as [Hb He].
      cbn [blank_free] in Hb. apply andb_true_iff in Hb as [Hab Hb].
      apply negb_true_iff in Hab.
      change ((a :: b :: r) ++ NN ++ t) with (a :: b :: (r ++ NN ++ t)).
      rewrite split_NN_two, Hab.
      change (b :: r ++ NN ++ t) with ((b :: r) ++ NN ++ t).
      rewrite IH; [reflexivity|].
      apply andb_true_iff. split; [exact Hb|exact He].
Qed.

Lemma split_NN_frame segs :
  forallb well_framed segs = true -> split (frame segs) NN = segs ++ [[]].
Proof.
  induction segs as [|s segs IH]; intros H; [reflexivity|].
  simpl in H. apply andb_true_iff in H as [Hs H].
  cbn [frame flat_map]. rewrite <- app_assoc.
  rewrite split_NN_framed by exact Hs.
  fold (frame segs). rewrite IH by exact H. reflexivity.
Qed.

(** ** Comparing strings *)

Lemma jsstring_eqb_eq (a b : jsstring) : jsstring_eqb a b = true <-> a = b.
Proof.
  unfold jsstring_eqb. revert b.
  induction a as [|x a IH]; intros [|y b];
    cbn [List.length combine forallb fst snd Nat.eqb andb].
  - split; reflexivity.
  - split; discriminate.
  - split; discriminate.
  - rewrite !andb_true_iff, N.eqb_eq. split.
    + intros (Hl & -> & Hf). f_equal. apply IH.
      apply andb_true_iff. split; assumption.
    + intros [= -> ->]. destruct (IH b) as [_ H].
      specialize (H eq_refl). apply andb_true_iff in H as [Hl Hf].
      repeat split; assumption.
Qed.

(** ** The decoder keeps its state from one chunk to the next *)

Lemma process_app d a b :
  process d (a ++ b) =
  let '(d1, o1) := process d a in
  let '(d2, o2) := process d1 b in
  (d2, o1 ++ o2).
Proof.
  revert d. induction a as [|x a IH]; intros d; cbn [app process].
  - destruct (process d b). reflexivity.
  - destruct (handler d (Byte.to_N x)) as [d1 rs]. rewrite IH.
    destruct (process d1 a) as [d2 o2]. destruct (process d2 b) as [d3 o3].
    rewrite app_assoc. reflexivity.
Qed.

Lemma serialize_app seen a b :
  serialize seen (a ++ b) =
  let '(s1, o1) := serialize seen a in
  let '(s2, o2) := serialize s1 b in
  (s2, o1 ++ o2).
Proof.
  revert seen. induction a as [|c a IH]; intros seen; cbn [app serialize].
  - destruct (serialize seen b). reflexivity.
  - rewrite (IH true).
    destruct (serialize true a) as [s1 o1].
    destruct seen; [|destruct (c =? 65279)];
      destruct (serialize s1 b) as [s2 o2]; rewrite <- ?app_assoc; reflexivity.
Qed.

Lemma decode_app td a b :
  decode td (a ++ b) =
  let '(td1, o1) := decode td a in
  let '(td2, o2) := decode td1 b in
  (td2, o1 ++ o2).
Proof.
  unfold decode. rewrite process_app.
  destruct (process (decoder td) a) as [d1 i1].
  destruct (serialize (BOM_seen td) i1) as [s1 o1] eqn:E1. cbn [decoder BOM_seen].
  destruct (process d1 b) as [d2 i2]. rewrite serialize_app, E1.
  destruct (serialize s1 i2) as [s2 o2]. reflexivity.
Qed.

(** ** Reading in pieces *)

(** Two reads, one after the other, hand over the parts that a single read
    of both chunks does, and leave the same decoder and buffer. *)
Lemma take_parts_app td buf a b :
  take_parts td buf (a ++ b) =
  let '(td1, buf1, parts1) := take_parts td buf a in
  let '(td2, buf2, parts2) := take_parts td1 buf1 b in
  (td2, buf2, parts1 ++ parts2).
Proof.
  unfold take_parts. rewrite decode_app.
  destruct (decode td a) as [td1 o1]. destruct (decode td1 b) as [td2 o2].
  rewrite app_assoc, split_NN_app.
  pose proof (split_nonempty (pop_or_empty (split (buf ++ o1) NN) ++ o2) NN) as Hne.
  unfold pop_or_empty, popped in *.
  rewrite last_app_nonempty, removelast_app_nonempty by exact Hne.
  reflexivity.
Qed.

Lemma parser_loop_one td buf value :
  parser_loop td buf [value] =
  map parse_segment (snd (take_parts td buf value)).
Proof.
  cbn [parser_loop]. destruct (take_parts td buf value) as [[td' buf'] parts].
  apply app_nil_r.
Qed.

Lemma parser_loop_cons td buf value rest :
  parser_loop td buf (value :: rest) = parser_loop td buf [value ++ concat rest].
Proof.
  revert td buf value. induction rest as [|c rest IH]; intros td buf value.
  - cbn [concat]. rewrite app_nil_r. reflexivity.
  - cbn [parser_loop concat]. rewrite take_parts_app.
    destruct (take_parts td buf value) as [[td1 buf1] parts1].
    specialize (IH td1 buf1 c). cbn [parser_loop] in IH. rewrite IH.
    destruct (take_parts td1 buf1 (c ++ concat rest)) as [[td2 buf2] parts2].
    rewrite !app_nil_r, map_app. reflexivity.
Qed.

Lemma parser_loop_concat chunks :
  parser_loop new_TextDecoder [] chunks =
  parser_loop new_TextDecoder [] [concat chunks].
Proof.
  destruct chunks as [|value rest]; [reflexivity|]. apply parser_loop_cons.
Qed.

Lemma feed_read w signal td buf value rest :
  feed w (AwaitRead signal td buf) (value :: rest)
  = let '(td', buf', parts) := take_parts td buf value in
    feed (dispatch_parts w parts) (AwaitRead signal td' buf') rest.
Proof.
  cbn [feed resume]. destruct (take_parts td buf value) as [[td' buf'] parts].
  reflexivity.
Qed.

(** The page and the task too are the same after the reads of the pieces
    and after one read of the whole. *)
Lemma feed_cons w signal td buf value rest :
  feed w (AwaitRead signal td buf) (value :: rest)
  = feed w (AwaitRead signal td buf) [value ++ concat rest].
Proof.
  revert w td buf value. induction rest as [|c rest IH]; intros w td buf value.
  - cbn [concat]. rewrite app_nil_r. reflexivity.
  - cbn [concat]. rewrite (feed_read _ _ _ _ (value ++ _)), take_parts_app.
    rewrite (feed_read _ _ _ _ value).
    destruct (take_parts td buf value) as [[td1 buf1] parts1].
    rewrite IH, feed_read.
    destruct (take_parts td1 buf1 (c ++ concat rest)) as [[td2 buf2] parts2].
    cbn [feed]. unfold dispatch_parts. rewrite fold_left_app. reflexivity.
Qed.

Lemma parser_loop_framed bytes segs :
  decoded bytes = frame segs ->
  forallb well_framed segs = true ->
  parser_loop new_TextDecoder [] [bytes] = map parse_segment segs.
Proof.
  intros Hd Hw. rewrite parser_loop_one. unfold take_parts, decoded in *.
  destruct (decode new_TextDecoder bytes) as [td text]. cbn [snd] in *. subst text.
  cbn [app]. rewrite split_NN_frame by exact Hw.
  unfold popped. rewrite removelast_last. reflexivity.
Qed.

(** ** The line feeds of the bytes are the line feeds of the text *)

Lemma sound_idle d : sound d = true -> idle d = true -> d = utf8_start.
Proof.
  unfold sound. intros H Hi. rewrite Hi in H. unfold idle in Hi.
  destruct d as [cp seen needed lo hi]. cbn in *.
  repeat (apply andb_true_iff in H as [H ?]).
  repeat match goal with E : (_ =? _) = true |- _ => apply N.eqb_eq in E end.
  subst. reflexivity.
Qed.

Lemma lead_ok_all x : x <> x0a -> lead_ok x = true.
Proof. destruct x; intros H; first [contradiction H; reflexivity | vm_compute; reflexivity]. Qed.

Lemma continuation_nonzero cp y :
  cp <> 0 -> N.lor (N.shiftl cp 6) y <> 0 /\ N.lor (N.shiftl cp 6) y <> 10.
Proof.
  intros Hcp.
  assert (forall v, N.shiftr v 6 = 0 -> N.lor (N.shiftl cp 6) y <> v) as H.
  { intros v Hv E. rewrite <- E, N.shiftr_lor, N.shiftr_shiftl_l in Hv by reflexivity.
    rewrite N.sub_diag, N.shiftl_0_r in Hv.
    apply N.lor_eq_0_l in Hv. contradiction. }
  split; apply H; reflexivity.
Qed.

Lemma trail_nonzero x :
  (144 <=? Byte.to_N x) && (Byte.to_N x <=? 191) = true ->
  N.land (Byte.to_N x) 63 <> 0.
Proof. destruct x; vm_compute; intros H; congruence. Qed.

(** A byte other than the line feed yields no line feed, and when it
    yields nothing a sequence is in progress. *)
Lemma handler_other d x :
  sound d = true -> x <> x0a ->
  sound (fst (handler d (Byte.to_N x))) = true
  /\ forallb (fun c => negb (c =? LF)) (scalars (snd (handler d (Byte.to_N x)))) = true
  /\ (scalars (snd (handler d (Byte.to_N x))) = [] ->
      idle (fst (handler d (Byte.to_N x))) = false).
Proof.
  intros Hs Hx. pose proof (lead_ok_all x Hx) as Hl. unfold lead_ok in Hl.
  destruct (idle d) eqn:Hi.
  - rewrite (sound_idle d Hs Hi). unfold handler. cbn [bytes_needed utf8_start N.eqb].
    destruct (lead utf8_start (Byte.to_N x)) as [d' r]. cbn [fst snd].
    apply andb_true_iff in Hl as [Hd Hr]. split; [exact Hd|].
    destruct r; cbn [scalars flat_map app forallb].
    + split; [reflexivity|]. intros _. apply negb_true_iff. exact Hr.
    + repeat (apply andb_true_iff in Hr as [Hr ?]).
      rewrite Hr. split; [reflexivity|discriminate].
    + split; [reflexivity|discriminate].
  - unfold handler. unfold idle in Hi. rewrite Hi.
    unfold sound, idle in Hs. rewrite Hi in Hs.
    apply andb_true_iff in Hs as [Hlo Hcp]. apply N.ltb_lt in Hlo.
    destruct (between (lower_boundary d) (upper_boundary d) (Byte.to_N x)) eqn:Hb;
      cbn [negb].
    + (* a continuation byte *)
      assert (N.lor (N.shiftl (code_point d) 6) (N.land (Byte.to_N x) 63) <> 0
              /\ ((bytes_seen d + 1 =? bytes_needed d) = true ->
                  N.lor (N.shiftl (code_point d) 6) (N.land (Byte.to_N x) 63) <> 10))
        as [Hnz Hnl].
      { apply orb_true_iff in Hcp as [Hcp|Hcp].
        - apply negb_true_iff, N.eqb_neq in Hcp.
          destruct (continuation_nonzero _ (N.land (Byte.to_N x) 63) Hcp). auto.
        - repeat (apply andb_true_iff in Hcp as [Hcp ?]).
          unfold between in Hb. apply andb_true_iff in Hb as [Hb1 Hb2].
          apply N.leb_le in Hcp, Hb1, Hb2.
          repeat match goal with E : (_ <=? _) = true |- _ => apply N.leb_le in E end.
          split.
          + destruct (code_point d) eqn:Ec.
            * rewrite N.shiftl_0_l, N.lor_0_l. apply trail_nonzero.
              apply andb_true_iff. split; apply N.leb_le; lia.
            * eapply continuation_nonzero. discriminate.
          + intros E. apply N.eqb_eq in E. lia. }
      destruct (bytes_seen d + 1 =? bytes_needed d) eqn:Hc; cbn [fst snd].
      * split; [reflexivity|]. cbn [scalars flat_map app forallb].
        split; [|discriminate].
        rewrite andb_true_r. apply negb_true_iff, N.eqb_neq. apply Hnl. reflexivity.
      * split; [|split; [reflexivity|intros _; exact Hi]].
        unfold sound, idle. cbn [bytes_needed lower_boundary code_point].
        rewrite Hi. cbn [N.ltb N.compare Pos.compare Pos.compare_cont andb].
        apply orb_true_iff. left. apply negb_true_iff, N.eqb_neq. exact Hnz.
    + (* not one: the sequence ends with an error and the byte is read again *)
      destruct (lead utf8_start (Byte.to_N x)) as [d' r]. cbn [fst snd].
      apply andb_true_iff in Hl as [Hd Hr]. split; [exact Hd|].
      split; [|destruct r; discriminate].
      destruct r; cbn [scalars flat_map app forallb]; try reflexivity.
      repeat (apply andb_true_iff in Hr as [Hr ?]). rewrite Hr. reflexivity.
Qed.

(** The line feed byte ends whatever was in progress. *)
Lemma handler_LF d :
  sound d = true ->
  handler d 10
  = (utf8_start, if idle d then [CodePoint 10] else [DecodeError; CodePoint 10]).
Proof.
  intros Hs. destruct (idle d) eqn:Hi.
  - rewrite (sound_idle d Hs Hi). reflexivity.
  - unfold handler. unfold sound in Hs. rewrite Hi in Hs. unfold idle in Hi. rewrite Hi.
    apply andb_true_iff in Hs as [Hlo _]. apply N.ltb_lt in Hlo.
    unfold between.
    replace (lower_boundary d <=? 10) with false by (symmetry; apply N.leb_gt; exact Hlo).
    reflexivity.
Qed.

Lemma utf16_nonempty c : utf16 c <> [].
Proof. unfold utf16. destruct (c <? 65536); discriminate. Qed.

Lemma utf16_no_LF c :
  negb (c =? LF) = true -> forallb (fun u => negb (u =? LF)) (utf16 c) = true.
Proof.
  intros H. unfold utf16. destruct (c <? 65536); cbn [forallb].
  - rewrite H. reflexivity.
  - rewrite !andb_true_r. apply andb_true_iff.
    split; apply negb_true_iff, N.eqb_neq; unfold LF; lia.
Qed.

Lemma serialize_seen items : fst (serialize true items) = true.
Proof.
  induction items as [|c items IH]; [reflexivity|].
  cbn [serialize]. destruct (serialize true items). exact IH.
Qed.

Lemma serialize_raises seen items :
  seen = true \/ items <> [] -> fst (serialize seen items) = true.
Proof.
  intros H. destruct items as [|c items].
  - destruct H as [->|H]; [reflexivity|contradiction].
  - cbn [serialize]. pose proof (serialize_seen items) as Hs.
    destruct (serialize true items) as [s o]. cbn [fst] in Hs. subst s.
    destruct seen; [|destruct (c =? 65279)]; reflexivity.
Qed.

Lemma serialize_keeps seen items :
  fst (serialize seen items) = false -> seen = false /\ items = [].
Proof.
  intros H. destruct seen.
  - rewrite serialize_seen in H. discriminate.
  - split; [reflexivity|]. destruct items as [|c items]; [reflexivity|].
    rewrite serialize_raises in H by (right; discriminate). discriminate.
Qed.

Lemma serialize_true_nil items : snd (serialize true items) = [] -> items = [].
Proof.
  destruct items as [|c items]; [reflexivity|]. cbn [serialize].
  destruct (serialize true items) as [s o]. cbn [snd].
  intros H. apply app_eq_nil in H as [H _]. destruct (utf16_nonempty _ H).
Qed.

Lemma serialize_no_LF seen items :
  forallb (fun c => negb (c =? LF)) items = true ->
  forallb (fun u => negb (u =? LF)) (snd (serialize seen items)) = true.
Proof.
  revert seen. induction items as [|c items IH]; intros seen H; [reflexivity|].
  cbn [forallb] in H. apply andb_true_iff in H as [Hc H].
  cbn [serialize]. specialize (IH true H).
  destruct (serialize true items) as [s o]. cbn [snd] in *.
  destruct seen; [|destruct (c =? 65279)]; cbn [snd]; try exact IH;
    rewrite forallb_app, IH, (utf16_no_LF c Hc); reflexivity.
Qed.

(** The text of one byte and the text of the rest. *)
Lemma decode_cons td x rest :
  decode td (x :: rest)
  = let '(td1, o1) := decode td [x] in
    let '(td2, o2) := decode td1 rest in
    (td2, o1 ++ o2).
Proof. exact (decode_app td [x] rest). Qed.

Lemma decode_one td x :
  decode td [x]
  = let '(seen, out) :=
      serialize (BOM_seen td) (scalars (snd (handler (decoder td) (Byte.to_N x)))) in
    ({| decoder := fst (handler (decoder td) (Byte.to_N x)); BOM_seen := seen |}, out).
Proof.
  unfold decode. cbn [process].
  destruct (handler (decoder td) (Byte.to_N x)) as [d rs]. cbn [fst snd].
  rewrite app_nil_r. reflexivity.
Qed.

Lemma decode_LF td :
  sound (decoder td) = true ->
  decode td [x0a]
  = ({| decoder := utf8_start; BOM_seen := true |},
     if idle (decoder td) then [LF] else [65533; LF]).
Proof.
  intros Hs. rewrite decode_one. change (Byte.to_N x0a) with 10.
  rewrite (handler_LF _ Hs). cbn [fst snd].
  destruct (idle (decoder td)), (BOM_seen td); reflexivity.
Qed.

Lemma decode_other td x :
  sound (decoder td) = true -> x <> x0a ->
  sound (decoder (fst (decode td [x]))) = true
  /\ forallb (fun u => negb (u =? LF)) (snd (decode td [x])) = true
  /\ (BOM_seen (fst (decode td [x])) = false -> BOM_seen td = false)
  /\ (snd (decode td [x]) = [] -> idle (decoder (fst (decode td [x]))) = true ->
      BOM_seen td = false).
Proof.
  intros Hs Hx. rewrite decode_one.
  destruct (handler_other _ x Hs Hx) as (Hd & Hn & He).
  pose proof (serialize_no_LF (BOM_seen td) _ Hn) as Hn'.
  pose proof (serialize_keeps (BOM_seen td)
                (scalars (snd (handler (decoder td) (Byte.to_N x))))) as Hk.
  pose proof (serialize_true_nil
                (scalars (snd (handler (decoder td) (Byte.to_N x))))) as Ht.
  destruct (serialize (BOM_seen td) _) as [seen out] eqn:E. cbn [fst snd decoder BOM_seen] in *.
  split; [exact Hd|]. split; [exact Hn'|]. split; [intros H; apply Hk, H|].
  intros -> Hi. destruct (BOM_seen td); [|reflexivity].
  rewrite E in Ht. cbn [snd] in Ht. rewrite (He (Ht eq_refl)) in Hi. discriminate.
Qed.

Lemma to_N_LF x : x <> x0a -> (Byte.to_N x =? LF) = false.
Proof. destruct x; intros H; first [contradiction H; reflexivity | reflexivity]. Qed.

Lemma lfruns_no_LF cur out t :
  out <> [] -> forallb (fun u => negb (u =? LF)) out = true ->
  lfruns cur (out ++ t) = close_run cur ++ lfruns 0 t.
Proof.
  revert cur. induction out as [|c out IH]; intros cur Hne H; [contradiction|].
  cbn [forallb] in H. apply andb_true_iff in H as [Hc H].
  apply negb_true_iff in Hc. cbn [app lfruns]. rewrite Hc. f_equal.
  destruct out as [|c' out]; [reflexivity|].
  rewrite IH by (discriminate || exact H). reflexivity.
Qed.

(** The runs of line feeds of the text are those of the bytes; while a
    sequence is in progress the run that was open in the text is closed in
    the bytes already. *)
Lemma lfruns_decode bytes td cur :
  sound (decoder td) = true ->
  (BOM_seen td = false -> cur = 0%nat) ->
  lfruns cur (snd (decode td bytes))
  = if idle (decoder td) then lfruns cur (units bytes)
    else close_run cur ++ lfruns 0 (units bytes).
Proof.
  revert td cur. induction bytes as [|x r IH]; intros td cur Hs Hb.
  - cbn. destruct (idle (decoder td)); [reflexivity|]. rewrite app_nil_r. reflexivity.
  - rewrite decode_cons. destruct (Byte.byte_eq_dec x x0a) as [->|Hx].
    + rewrite (decode_LF td Hs).
      specialize (IH {| decoder := utf8_start; BOM_seen := true |}).
      destruct (decode {| decoder := utf8_start; BOM_seen := true |} r) as [td2 T].
      cbn [snd] in *. destruct (idle (decoder td)).
      * cbn [app units map lfruns]. change (Byte.to_N x0a =? LF) with true.
        change (LF =? LF) with true. cbn iota. apply IH; [reflexivity|discriminate].
      * cbn [app units map lfruns]. change (Byte.to_N x0a =? LF) with true.
        change (LF =? LF) with true. change (65533 =? LF) with false. cbn iota.
        cbn [close_run app]. f_equal. apply IH; [reflexivity|discriminate].
    + destruct (decode_other td x Hs Hx) as (Hs1 & Hn & Hb1 & He).
      assert ((if idle (decoder td) then lfruns cur (units (x :: r))
               else close_run cur ++ lfruns 0 (units (x :: r)))
              = close_run cur ++ lfruns 0 (units r)) as ->.
      { cbn [units map lfruns]. rewrite (to_N_LF x Hx).
        destruct (idle (decoder td)); reflexivity. }
      destruct (decode td [x]) as [td1 out]. cbn [fst snd] in *.
      pose proof (IH td1 cur Hs1) as IHc. pose proof (IH td1 0%nat Hs1) as IH0.
      destruct (decode td1 r) as [td2 T]. cbn [snd] in *.
      destruct out as [|c out].
      * cbn [app]. rewrite IHc by (intros H; apply Hb, Hb1, H).
        destruct (idle (decoder td1)); [|reflexivity].
        rewrite (Hb (He eq_refl eq_refl)). reflexivity.
      * rewrite lfruns_no_LF by (discriminate || exact Hn). f_equal.
        rewrite IH0 by reflexivity. destruct (idle (decoder td1)); reflexivity.
Qed.

(** ** Counting the parts *)

Lemma length_cons_head c (X : list jsstring) :
  X <> [] -> List.length (cons_head c X) = List.length X.
Proof. destruct X; [contradiction|reflexivity]. Qed.

Lemma length_split_other c s :
  (c =? LF) = false -> List.length (split (c :: s) NN) = List.length (split s NN).
Proof.
  intros Hc. destruct s as [|b r].
  - rewrite split_NN_one. reflexivity.
  - rewrite split_NN_two, Hc. cbn [andb].
    apply length_cons_head, split_nonempty.
Qed.

Lemma length_split_LF_other c s :
  (c =? LF) = false ->
  List.length (split (LF :: c :: s) NN) = List.length (split s NN).
Proof.
  intros Hc. rewrite split_NN_two, Hc, andb_false_r.
  rewrite length_cons_head by apply split_nonempty.
  apply length_split_other, Hc.
Qed.

Lemma nat_ind_pairs (P : nat -> Prop) :
  P 0%nat -> P 1%nat -> (forall k, P k -> P (S (S k))) -> forall k, P k.
Proof.
  intros H0 H1 Hstep k.
  assert (P k /\ P (S k)) as [H _]; [|exact H].
  induction k as [|k [IHk IHSk]]; split; auto.
Qed.

(** [cur] line feeds before a string: half of them, rounded down, are
    separators, and the odd one stays in front. *)
Lemma length_split_runs s cur :
  List.length (split (repeat LF cur ++ s) NN) = S (halves (lfruns cur s)).
Proof.
  assert (forall k t, List.length (split (repeat LF (S (S k)) ++ t) NN)
                      = S (List.length (split (repeat LF k ++ t) NN))) as Htwo.
  { intros k t. cbn [repeat app]. rewrite split_NN_two. reflexivity. }
  assert (forall k, halves (close_run k) = Nat.div2 k) as Hclose.
  { intros [|k]; cbn; [reflexivity|]. rewrite Nat.add_0_r. reflexivity. }
  assert (forall k l, halves (close_run k ++ l) = (Nat.div2 k + halves l)%nat) as Happ.
  { intros k l. unfold halves. rewrite map_app, list_sum_app. fold (halves (close_run k)).
    rewrite Hclose. reflexivity. }
  revert cur. induction s as [|c s IH]; intros cur.
  - rewrite app_nil_r. cbn [lfruns]. rewrite Hclose.
    induction cur as [| |k IHk] using nat_ind_pairs.
    + reflexivity.
    + reflexivity.
    + rewrite <- (app_nil_r (repeat LF (S (S k)))), Htwo, app_nil_r.
      rewrite IHk. reflexivity.
  - cbn [lfruns]. destruct (c =? LF) eqn:Hc.
    + apply N.eqb_eq in Hc. subst c. rewrite <- IH.
      replace (repeat LF cur ++ LF :: s) with (repeat LF (S cur) ++ s); [reflexivity|].
      cbn [repeat]. rewrite repeat_cons, <- app_assoc. reflexivity.
    + rewrite Happ.
      induction cur as [| |k IHk] using nat_ind_pairs.
      * cbn [repeat app Nat.div2 Nat.add]. rewrite length_split_other by exact Hc.
        apply (IH 0%nat).
      * cbn [repeat app Nat.div2 Nat.add].
        rewrite length_split_LF_other by exact Hc. apply (IH 0%nat).
      * rewrite Htwo, IHk. reflexivity.
Qed.

(** The text of a body has as many parts as its bytes. *)
Lemma length_split_decoded bytes :
  List.length (split (decoded bytes) NN) = List.length (split (units bytes) NN).
Proof.
  pose proof (length_split_runs (decoded bytes) 0) as Ht.
  pose proof (length_split_runs (units bytes) 0) as Hb.
  cbn [repeat app] in Ht, Hb. rewrite Ht, Hb. unfold decoded.
  rewrite (lfruns_decode bytes new_TextDecoder 0); reflexivity.
Qed.

Lemma units_byte_frame bsegs : units (byte_frame bsegs) = frame (map units bsegs).
Proof.
  induction bsegs as [|b bsegs IH]; [reflexivity|].
  cbn [byte_frame flat_map map frame]. unfold units in *.
  rewrite !map_app. fold (byte_frame bsegs). rewrite IH. reflexivity.
Qed.

Lemma length_parser_loop_one bytes :
  S (List.length (parser_loop new_TextDecoder [] [bytes]))
  = List.length (split (units bytes) NN).
Proof.
  rewrite parser_loop_one, <- length_split_decoded. unfold take_parts, decoded.
  destruct (decode new_TextDecoder bytes) as [td text]. cbn [snd app].
  rewrite length_map. unfold popped.
  pose proof (split_nonempty text NN) as Hne.
  destruct (split text NN) as [|x X] using rev_ind; [contradiction|].
  rewrite removelast_last, length_app. cbn. lia.
Qed.

Lemma length_parser_loop_framed bsegs :
  forallb byte_well_framed bsegs = true ->
  List.length (parser_loop new_TextDecoder [] [byte_frame bsegs]) = List.length bsegs.
Proof.
  intros H. apply eq_add_S.
  rewrite length_parser_loop_one, units_byte_frame, split_NN_frame.
  - rewrite length_app, length_map. cbn. lia.
  - clear -H. induction bsegs as [|b bsegs IH]; [reflexivity|].
    cbn [forallb map] in *. apply andb_true_iff in H as [Hb H].
    unfold byte_well_framed in Hb. rewrite Hb. exact (IH H).
Qed.

(** C1. Whatever way the bytes of a body are cut into chunks, be it inside a
    marker line or inside the bytes of one character, when the body is made
    of N well-framed segments each closed by a blank line, the read loop
    yields exactly N events, and they are, in the same order, the events it
    yields when the whole body arrives as one chunk; when the decoded text
    is made of the segments [segs], they are the events of these segments,
    kind and payload. *)
Theorem parser_chunking_independent (chunks bsegs : list (list byte)) :
  concat chunks = byte_frame bsegs ->
  forallb byte_well_framed bsegs = true ->
  List.length (parser_loop new_TextDecoder [] chunks) = List.length bsegs
  /\ parser_loop new_TextDecoder [] chunks
     = parser_loop new_TextDecoder [] [concat chunks]
  /\ (forall segs,
         decoded (concat chunks) = frame segs ->
         forallb well_framed segs = true ->
         parser_loop new_TextDecoder [] chunks = map parse_segment segs).
Proof.
  intros Hc Hw. split; [|split].
  - rewrite parser_loop_concat, Hc. apply length_parser_loop_framed, Hw.
  - apply parser_loop_concat.
  - intros segs Hd Hs. rewrite parser_loop_concat.
    apply parser_loop_framed; assumption.
Qed.

Lemma parser_chunking_independent_witness :
  List.length (parser_loop new_TextDecoder [] sample_chunks) = 2%nat
  /\ parser_loop new_TextDecoder [] sample_chunks
     = parser_loop new_TextDecoder [] [concat sample_chunks]
  /\ parser_loop new_TextDecoder [] sample_chunks = map parse_segment sample_segments.
Proof.
  destruct (parser_chunking_independent sample_chunks sample_byte_segments)
    as (Hn & He & Hs); [vm_compute; reflexivity|vm_compute; reflexivity|].
  split; [exact Hn|]. split; [exact He|].
  apply Hs; vm_compute; reflexivity.
Defined.

Example sample_events :
  parser_loop new_TextDecoder [] sample_chunks
  = [ {| kind := lit "answer"; payload := [20320; 22909] |};
      {| kind := lit "done"; payload := lit "x" |} ].
Proof. vm_compute. reflexivity. Qed.

(** ** Lines of a segment *)

Lemma event_line_not_data line :
  startsWith line (lit "event:") = true -> startsWith line (lit "data:") = false.
Proof.
  destruct line as [|c line]; [discriminate|].
  cbn [lit list_ascii_of_string map startsWith].
  intros H. apply andb_true_iff in H as [H _]. apply N.eqb_eq in H. subst c.
  reflexivity.
Qed.

Lemma parse_lines_from lines evt dataLines :
  snd (fold_left parse_line lines (evt, dataLines)) =
  dataLines ++ map (fun l => trim (slice l 5))
                   (List.filter (fun l => startsWith l (lit "data:")) lines).
Proof.
  revert evt dataLines. induction lines as [|l lines IH]; intros evt dataLines.
  - cbn. rewrite app_nil_r. reflexivity.
  - cbn [fold_left List.filter]. unfold parse_line at 2.
    destruct (startsWith l (lit "event:")) eqn:Ee.
    + rewrite (event_line_not_data l Ee). apply IH.
    + destruct (startsWith l (lit "data:")).
      * rewrite IH. cbn [map]. rewrite <- app_assoc. reflexivity.
      * apply IH.
Qed.

Lemma parse_lines_no_event lines evt dataLines :
  forallb (fun l => negb (startsWith l (lit "event:"))) lines = true ->
  fst (fold_left parse_line lines (evt, dataLines)) = evt.
Proof.
  revert dataLines. induction lines as [|l lines IH]; intros dataLines H; [reflexivity|].
  cbn [forallb] in H. apply andb_true_iff in H as [Hl H].
  apply negb_true_iff in Hl.
  cbn [fold_left]. unfold parse_line at 2. rewrite Hl.
  destruct (startsWith l (lit "data:")); apply IH; exact H.
Qed.

Lemma kind_parse_segment chunk :
  kind (parse_segment chunk) = fst (parse_lines (split chunk [LF])).
Proof.
  unfold parse_segment. destruct (parse_lines (split chunk [LF])). reflexivity.
Qed.

Lemma payload_parse_segment chunk :
  payload (parse_segment chunk) = join [LF] (snd (parse_lines (split chunk [LF]))).
Proof.
  unfold parse_segment. destruct (parse_lines (split chunk [LF])). reflexivity.
Qed.

(** ** [trim] *)

Lemma trimStart_spec s :
  exists ws, s = ws ++ trimStart s
             /\ forallb isWhiteSpace ws = true
             /\ starts_black (trimStart s).
Proof.
  induction s as [|c s (ws & E & Hws & Hb)].
  - exists []. repeat split.
  - cbn [trimStart]. destruct (isWhiteSpace c) eqn:Ec.
    + exists (c :: ws). cbn [forallb app]. rewrite Ec, Hws, <- E. repeat split. exact Hb.
    + exists []. repeat split. exact Ec.
Qed.

Lemma trim_spec s :
  exists ws1 ws2,
    s = ws1 ++ trim s ++ ws2
    /\ forallb isWhiteSpace ws1 = true
    /\ forallb isWhiteSpace ws2 = true
    /\ starts_black (trim s)
    /\ starts_black (rev (trim s)).
Proof.
  unfold trim, trimEnd.
  destruct (trimStart_spec s) as (ws1 & E1 & H1 & B1).
  destruct (trimStart_spec (rev (trimStart s))) as (ws2 & E2 & H2 & B2).
  set (u := trimStart s) in *. set (v := trimStart (rev u)) in *.
  assert (u = rev v ++ rev ws2) as Eu.
  { rewrite <- rev_app_distr, <- E2, rev_involutive. reflexivity. }
  exists ws1, (rev ws2). repeat split.
  - rewrite <- Eu. exact E1.
  - exact H1.
  - rewrite forallb_forall in *. intros x Hx. apply H2, in_rev. exact Hx.
  - destruct (rev v) as [|c t] eqn:Ev; [exact I|].
    rewrite Eu in B1. exact B1.
  - rewrite rev_involutive. exact B2.
Qed.

Lemma trimStart_blank s : forallb isWhiteSpace s = true -> trimStart s = [].
Proof.
  induction s as [|c s IH]; [reflexivity|]. cbn [forallb trimStart].
  intros H. apply andb_true_iff in H as [-> H]. apply IH, H.
Qed.

Lemma trim_blank s : forallb isWhiteSpace s = true -> trim s = [].
Proof. intros H. unfold trim. rewrite trimStart_blank by exact H. reflexivity. Qed.

(** ** The claims on the parser *)

(** C6. The body [event: reason], [data: hello\nworld] (the data holding a
    backslash and an n), blank line, read as one chunk, yields exactly one
    event, of kind [reason], whose payload after the joining of the data
    lines is the data text with its backslash and n; the reason box is
    appended the two lines [hello] and [world], a line feed between them. *)
Theorem scenario_reason_two_lines (w : page) (signal : nat) :
  parser_loop new_TextDecoder [] [scenario_input]
  = [ {| kind := lit "reason"; payload := lit "hello\nworld" |} ]
  /\ resume w (AwaitRead signal new_TextDecoder []) (ReadChunk scenario_input)
     = Some (appendText ReasonBox (lit "hello" ++ [LF] ++ lit "world") w,
             AwaitRead signal {| decoder := utf8_start; BOM_seen := true |} [], [])
  /\ reasonBox (appendText ReasonBox (lit "hello" ++ [LF] ++ lit "world") w)
     = option_map (fun old => old ++ lit "hello" ++ [LF] ++ lit "world") (reasonBox w).
Proof.
  split; [vm_compute; reflexivity|]. split; reflexivity.
Qed.

(** C9. The payload of a segment is made of its lines that begin with
    [data:], each contributing the text after the marker with all the white
    space at both ends removed, joined by line feeds; what a line
    contributes neither begins nor ends with white space, and is empty when
    only white space follows the marker. *)
Theorem data_line_contribution (chunk : jsstring) :
  payload (parse_segment chunk)
  = join [LF] (map (fun line => trim (slice line 5))
                 (List.filter (fun line => startsWith line (lit "data:"))
                    (split chunk [LF])))
  /\ (forall line, exists ws1 ws2,
         slice line 5 = ws1 ++ trim (slice line 5) ++ ws2
         /\ forallb isWhiteSpace ws1 = true
         /\ forallb isWhiteSpace ws2 = true
         /\ starts_black (trim (slice line 5))
         /\ starts_black (rev (trim (slice line 5))))
  /\ (forall line, forallb isWhiteSpace (slice line 5) = true ->
                   trim (slice line 5) = []).
Proof.
  split; [|split].
  - rewrite payload_parse_segment. unfold parse_lines.
    rewrite parse_lines_from. reflexivity.
  - intros line. apply trim_spec.
  - intros line. apply trim_blank.
Qed.

Lemma data_line_contribution_witness :
  payload (parse_segment (lit "data:    x  y " ++ [LF] ++ lit "data: " ++ [9; 32]
                          ++ [LF] ++ lit "data:z"))
  = lit "x  y" ++ [LF] ++ [LF] ++ lit "z"
  /\ trim (slice (lit "data: " ++ [9; 32]) 5) = [].
Proof.
  destruct (data_line_contribution
              (lit "data:    x  y " ++ [LF] ++ lit "data: " ++ [9; 32]
               ++ [LF] ++ lit "data:z")) as (E & _ & B).
  split.
  - rewrite E. reflexivity.
  - apply B. reflexivity.
Defined.

(** C10. When a segment has several lines that begin with [event:], the
    kind of its event is the trimmed text after the marker of the last of
    them; the earlier ones have no effect. *)
Theorem last_event_line_wins (chunk line : jsstring) (before after : list jsstring) :
  split chunk [LF] = before ++ line :: after ->
  startsWith line (lit "event:") = true ->
  forallb (fun l => negb (startsWith l (lit "event:"))) after = true ->
  kind (parse_segment chunk) = trim (slice line 6).
Proof.
  intros Hs Hl Ha. rewrite kind_parse_segment. unfold parse_lines.
  rewrite Hs, fold_left_app. cbn [fold_left].
  destruct (fold_left parse_line before (lit "message", [])) as [evt dataLines].
  unfold parse_line at 2. rewrite Hl.
  apply parse_lines_no_event. exact Ha.
Qed.

Lemma last_event_line_wins_witness :
  kind (parse_segment (lit "event: reason" ++ [LF] ++ lit "data: a" ++ [LF]
                       ++ lit "event:  answer " ++ [LF] ++ lit "data: b"))
  = lit "answer".
Proof.
  apply (last_event_line_wins _ (lit "event:  answer ")
           [lit "event: reason"; lit "data: a"] [lit "data: b"]); reflexivity.
Defined.

(** ** Runs of a task *)

Lemma run_nil p reqs w' p' : ~ run p [] reqs w' p'.
Proof. intros H. inversion H. Qed.

Lemma run_settled o rs reqs w' p' : ~ run (Settled o) rs reqs w' p'.
Proof. intros H. inversion H; subst; discriminate. Qed.

Lemma run_inv p r rs reqs w' p' :
  run p (r :: rs) reqs w' p' ->
  exists w w1 p1 reqs1,
    resume w p r = Some (w1, p1, reqs1)
    /\ ((rs = [] /\ reqs = reqs1 /\ w' = w1 /\ p' = p1)
        \/ (exists reqs2, reqs = reqs1 ++ reqs2 /\ run p1 rs reqs2 w' p')).
Proof.
  intros H. inversion H; subst.
  - do 4 eexists. split; [eassumption|]. left. repeat split.
  - do 4 eexists. split; [eassumption|]. right. eauto.
Qed.





(** ** The claims on the life of a stream *)

(** C4. When the response to the streaming request has a status outside
    200-299 or has no body, the task ends at once: the status line shows
    the failure text followed by the status code, the streaming flag is
    down, nothing was sent, the boxes are as they were, and the task never
    reads: no run goes further. *)
Theorem failed_response_not_parsed (w : page) (signal : nat) (status : N) (body : bool) :
  Response_ok status && body = false ->
  resume w (AwaitStream signal) (StreamReply status body)
  = Some (request_failed status w, Settled Fulfilled, [])
  /\ statusEl (request_failed status w)
     = option_map (fun _ => txt_request_failed ++ numberToString status) (statusEl w)
  /\ streaming (request_failed status w) = false
  /\ reasonBox (request_failed status w) = reasonBox w
  /\ answerBox (request_failed status w) = answerBox w
  /\ (forall rs reqs w' p',
         run (AwaitStream signal) (StreamReply status body :: rs) reqs w' p' ->
         rs = [] /\ reqs = [] /\ p' = Settled Fulfilled).
Proof.
  intros H.
  assert (resume w (AwaitStream signal) (StreamReply status body)
          = Some (request_failed status w, Settled Fulfilled, [])) as E.
  { cbn. rewrite <- negb_andb, H. reflexivity. }
  split; [exact E|]. split; [cbn; destruct (statusEl w); reflexivity|].
  do 3 (split; [reflexivity|]).
  intros rs reqs w' p' Hrun.
  apply run_inv in Hrun as (w0 & w1 & p1 & reqs1 & Hr & Hrun).
  cbn in Hr. rewrite <- negb_andb, H in Hr. cbn in Hr. injection Hr as <- <- <-.
  destruct Hrun as [(-> & -> & _ & ->)|(reqs2 & _ & Hrun)]; [repeat split|].
  destruct (run_settled _ _ _ _ _ Hrun).
Qed.

Lemma failed_response_not_parsed_witness :
  resume idle_page (AwaitStream 0) (StreamReply 503 true)
  = Some (request_failed 503 idle_page, Settled Fulfilled, [])
  /\ statusEl (request_failed 503 idle_page) = Some (txt_request_failed ++ lit "503").
Proof.
  destruct (failed_response_not_parsed idle_page 0 503 true) as (E & S & _);
    [reflexivity|].
  split; [exact E|]. rewrite S. reflexivity.
Defined.

Lemma dispatch_done w data :
  dispatch w {| kind := lit "done"; payload := data |}
  = set_stopBtn_disabled true
      (set_sendBtn_disabled false (set_streaming false (setStatus txt_done w))).
Proof. reflexivity. Qed.








(** ** Initialisation *)

Lemma resume_after_connect w p r w1 p1 reqs1 :
  before_connect p = false ->
  resume w p r = Some (w1, p1, reqs1) ->
  before_connect p1 = false.
Proof.
  intros Hp Hr.
  destruct p; try discriminate Hp; destruct r; resumed Hr; reflexivity.
Qed.

(** No reply of the initialisation is awaited once the stream is asked for. *)
Lemma run_after_connect p pre r_ok js_ok js_error did reqs w' p' :
  before_connect p = false ->
  ~ run p (pre ++ [InitReply r_ok js_ok js_error did]) reqs w' p'.
Proof.
  revert p reqs. induction pre as [|r pre IH]; intros p reqs Hp H;
    apply run_inv in H as (w & w1 & p1 & reqs1 & Hr & H).
  - destruct p; try discriminate Hp; discriminate Hr.
  - destruct H as [(E & _)|(reqs2 & _ & H)].
    + destruct pre; discriminate E.
    + apply (IH p1 reqs2); [|exact H].
      exact (resume_after_connect _ _ _ _ _ _ Hp Hr).
Qed.

Lemma run_to_init_failure p pre r_ok did msg reqs w' p' :
  before_connect p = true ->
  run p (pre ++ [InitReply r_ok false (Some msg) did]) reqs w' p' ->
  p' = Settled (Rejected (Error (or_else (Some msg) (lit "init failed"))))
  /\ existsb is_stream_request reqs = false.
Proof.
  revert p reqs. induction pre as [|r pre IH]; intros p reqs Hp H;
    apply run_inv in H as (w & w1 & p1 & reqs1 & Hr & H).
  - destruct H as [(_ & -> & _ & ->)|(reqs2 & _ & H)];
      [|destruct (run_nil _ _ _ _ H)].
    destruct p; try discriminate Hp; try discriminate Hr.
    cbn in Hr. rewrite orb_true_r in Hr. injection Hr as <- <- <-.
    split; reflexivity.
  - destruct H as [(E & _)|(reqs2 & -> & H)]; [destruct pre; discriminate E|].
    rewrite existsb_app.
    destruct p; try discriminate Hp; destruct r; resumed Hr;
      first [ destruct (run_settled _ _ _ _ _ H)
            | apply run_after_connect in H; [destruct H|reflexivity]
            | apply IH in H as [-> ->]; [split|]; reflexivity ].
Qed.

(** C5. With no dialog identifier, [startStream] first initialises; when the
    reply of the initialisation has [ok: false] and [error: "boom"],
    whatever its status and whatever the card files answered before, the
    call rejects with the error whose message is [boom], and no request to
    [/api/chat/stream] was sent. *)
Theorem init_failure_rejects
    (w : page) (a : args) (pre : list settled) (r_ok : bool) (did : jsstring)
    (reqs : list request) (w' : page) (p' : pc) :
  dialogId w = [] ->
  run (snd (fst (startStream a w)))
      (pre ++ [InitReply r_ok false (Some (lit "boom")) did]) reqs w' p' ->
  p' = Settled (Rejected (Error (lit "boom")))
  /\ existsb is_stream_request (snd (startStream a w) ++ reqs) = false.
Proof.
  intros Hd H. unfold startStream, initDialog, loadCards in *.
  rewrite Hd in *. cbn [truthy fst snd] in *.
  apply run_to_init_failure in H as [-> Hs]; [|reflexivity].
  split; [reflexivity|]. cbn [app existsb]. rewrite Hs. reflexivity.
Qed.

Lemma init_failure_rejects_witness :
  exists w',
    run (snd (fst (startStream (default_args (lit "hi")) unopened_page)))
      ([Rejects (Error (lit "404 /static/Cards.json")); Cards []]
       ++ [InitReply true false (Some (lit "boom")) []])
      ([GET_cards_fallback] ++ [POST_init (lit "run-1") []] ++ []) w'
      (Settled (Rejected (Error (lit "boom"))))
    /\ existsb is_stream_request
         (snd (startStream (default_args (lit "hi")) unopened_page)
          ++ [GET_cards_fallback] ++ [POST_init (lit "run-1") []] ++ []) = false.
Proof.
  assert (exists w',
             run (snd (fst (startStream (default_args (lit "hi")) unopened_page)))
               ([Rejects (Error (lit "404 /static/Cards.json")); Cards []]
                ++ [InitReply true false (Some (lit "boom")) []])
               ([GET_cards_fallback] ++ [POST_init (lit "run-1") []] ++ []) w'
               (Settled (Rejected (Error (lit "boom"))))) as [w' R].
  { eexists.
    eapply (run_more unopened_page); [reflexivity|].
    eapply (run_more unopened_page); [reflexivity|].
    eapply (run_last unopened_page). reflexivity. }
  exists w'. split; [exact R|].
  exact (proj2 (init_failure_rejects unopened_page _ _ _ _ _ _ _ eq_refl R)).
Defined.

(** * More of the code *)

(** ** The router and the lines it is given *)

Lemma dispatch_unknown w ev : known_kind (kind ev) = false -> dispatch w ev = w.
Proof.
  unfold known_kind, dispatch. intros H.
  repeat (apply orb_false_iff in H as [H ?]).
  repeat match goal with E : jsstring_eqb _ _ = false |- _ => rewrite E; clear E end.
  reflexivity.
Qed.

Lemma filter_none {A} (f : A -> bool) (l : list A) :
  forallb (fun x => negb (f x)) l = true -> List.filter f l = [].
Proof.
  induction l as [|x l IH]; [reflexivity|]. cbn [forallb List.filter].
  intros H. apply andb_true_iff in H as [Hx H]. apply negb_true_iff in Hx.
  rewrite Hx. exact (IH H).
Qed.

(** X1. A segment with no line that begins with [event:] gets the kind
    [message], and the router ignores it: the page is what it was. *)
Theorem segment_without_event_line (w : page) (chunk : jsstring) :
  forallb (fun l => negb (is_event_line l)) (split chunk [LF]) = true ->
  kind (parse_segment chunk) = lit "message"
  /\ dispatch w (parse_segment chunk) = w.
Proof.
  intros H.
  assert (kind (parse_segment chunk) = lit "message") as E.
  { rewrite kind_parse_segment. unfold parse_lines.
    apply parse_lines_no_event. exact H. }
  split; [exact E|]. apply dispatch_unknown. rewrite E. reflexivity.
Qed.

Lemma segment_without_event_line_witness :
  kind (parse_segment (lit "data: lost" ++ [LF] ++ lit ": note")) = lit "message"
  /\ dispatch idle_page (parse_segment (lit "data: lost" ++ [LF] ++ lit ": note"))
     = idle_page.
Proof.
  apply (segment_without_event_line idle_page
           (lit "data: lost" ++ [LF] ++ lit ": note")).
  reflexivity.
Defined.

(** X2. Segments whose kind is none of [meta], [reason], [answer], [error],
    [done] change nothing, however many a chunk holds. *)
Theorem unknown_kinds_ignored (w : page) (parts : list jsstring) :
  forallb (fun chunk => negb (known_kind (kind (parse_segment chunk)))) parts = true ->
  dispatch_parts w parts = w.
Proof.
  unfold dispatch_parts. induction parts as [|chunk parts IH]; intros H; [reflexivity|].
  cbn [forallb] in H. apply andb_true_iff in H as [Hc H].
  apply negb_true_iff in Hc. cbn [fold_left].
  rewrite (dispatch_unknown w _ Hc). exact (IH H).
Qed.

Lemma unknown_kinds_ignored_witness :
  dispatch_parts idle_page
    [lit "event: ping" ++ [LF] ++ lit "data: 1"; lit "event: Done"; lit "id: 7"]
  = idle_page.
Proof.
  apply (unknown_kinds_ignored idle_page
           [lit "event: ping" ++ [LF] ++ lit "data: 1"; lit "event: Done"; lit "id: 7"]).
  reflexivity.
Defined.

Lemma parse_line_other st line :
  is_event_line line = false -> is_data_line line = false -> parse_line st line = st.
Proof.
  unfold is_event_line, is_data_line, parse_line. intros -> ->.
  destruct st. reflexivity.
Qed.

Lemma parse_lines_markers lines st :
  fold_left parse_line
    (List.filter (fun l => is_event_line l || is_data_line l) lines) st
  = fold_left parse_line lines st.
Proof.
  revert st. induction lines as [|l lines IH]; intros st; [reflexivity|].
  cbn [List.filter fold_left].
  destruct (is_event_line l) eqn:Ee; [cbn [orb fold_left]; apply IH|].
  destruct (is_data_line l) eqn:Ed; [cbn [orb fold_left]; apply IH|].
  cbn [orb]. rewrite (parse_line_other st l Ee Ed). apply IH.
Qed.

(** X3. Only the lines that begin with [event:] or [data:] count: two
    segments with the same such lines, in the same order, give the same
    event, whatever other lines (comments, [id:], [retry:], blank-looking
    lines) they hold. *)
Theorem other_lines_ignored (chunk1 chunk2 : jsstring) :
  List.filter (fun l => is_event_line l || is_data_line l) (split chunk1 [LF])
  = List.filter (fun l => is_event_line l || is_data_line l) (split chunk2 [LF]) ->
  parse_segment chunk1 = parse_segment chunk2.
Proof.
  intros H. unfold parse_segment, parse_lines.
  rewrite <- (parse_lines_markers (split chunk1 [LF])),
          <- (parse_lines_markers (split chunk2 [LF])), H.
  reflexivity.
Qed.

Lemma other_lines_ignored_witness :
  parse_segment (lit ": keep-alive" ++ [LF] ++ lit "event: answer" ++ [LF]
                 ++ lit "id: 3" ++ [LF] ++ lit "data: x" ++ [LF] ++ lit " data: y")
  = parse_segment (lit "event: answer" ++ [LF] ++ lit "data: x").
Proof.
  apply other_lines_ignored. reflexivity.
Defined.

Lemma appendText_nothing el w : appendText el [] w = scroll_to_end el w.
Proof.
  unfold appendText, scroll_to_end, set_box.
  destruct w as [rid did ctl str n ab send stop reason answer hist cards status rs ans].
  destruct el; cbn; [destruct reason|destruct answer]; cbn;
    rewrite ?app_nil_r; reflexivity.
Qed.

(** X4. A segment with no line that begins with [data:] has the empty
    payload.  As a [reason] or [answer] event it appends nothing: all it
    does is what [appendText] does with the empty string, the box, when the
    page has it, is scrolled to its end; the texts of both boxes are what
    they were. *)
Theorem segment_without_data_line (w : page) (chunk : jsstring) :
  forallb (fun l => negb (is_data_line l)) (split chunk [LF]) = true ->
  payload (parse_segment chunk) = []
  /\ (kind (parse_segment chunk) = lit "reason" ->
      dispatch w (parse_segment chunk) = scroll_to_end ReasonBox w)
  /\ (kind (parse_segment chunk) = lit "answer" ->
      dispatch w (parse_segment chunk) = scroll_to_end AnswerBox w)
  /\ (kind (parse_segment chunk) = lit "reason" \/ kind (parse_segment chunk) = lit "answer" ->
      reasonBox (dispatch w (parse_segment chunk)) = reasonBox w
      /\ answerBox (dispatch w (parse_segment chunk)) = answerBox w).
Proof.
  intros H.
  assert (payload (parse_segment chunk) = []) as E.
  { rewrite payload_parse_segment. unfold parse_lines.
    rewrite parse_lines_from. unfold is_data_line in H.
    rewrite (filter_none _ _ H). reflexivity. }
  assert (kind (parse_segment chunk) = lit "reason" ->
          dispatch w (parse_segment chunk) = scroll_to_end ReasonBox w) as R.
  { intros K. unfold dispatch. rewrite K, E.
    change (replaceAll [] (lit "\n") [LF]) with (@nil N).
    change (jsstring_eqb (lit "reason") (lit "meta")) with false.
    change (jsstring_eqb (lit "reason") (lit "reason")) with true.
    cbn iota. apply appendText_nothing. }
  assert (kind (parse_segment chunk) = lit "answer" ->
          dispatch w (parse_segment chunk) = scroll_to_end AnswerBox w) as A.
  { intros K. unfold dispatch. rewrite K, E.
    change (replaceAll [] (lit "\n") [LF]) with (@nil N).
    change (jsstring_eqb (lit "answer") (lit "meta")) with false.
    change (jsstring_eqb (lit "answer") (lit "reason")) with false.
    change (jsstring_eqb (lit "answer") (lit "answer")) with true.
    cbn iota. apply appendText_nothing. }
  split; [exact E|]. split; [exact R|]. split; [exact A|].
  intros [K|K]; [rewrite (R K)|rewrite (A K)]; split; reflexivity.
Qed.

Lemma segment_without_data_line_witness :
  payload (parse_segment (lit "event: reason" ++ [LF] ++ lit "datum: x")) = []
  /\ dispatch (clearBox ReasonBox (appendText ReasonBox (lit "old") idle_page))
       (parse_segment (lit "event: reason" ++ [LF] ++ lit "datum: x"))
     = scroll_to_end ReasonBox (clearBox ReasonBox (appendText ReasonBox (lit "old") idle_page))
  /\ reasonScroll (clearBox ReasonBox (appendText ReasonBox (lit "old") idle_page))
     = Some (lit "old")
  /\ reasonScroll
       (dispatch (clearBox ReasonBox (appendText ReasonBox (lit "old") idle_page))
          (parse_segment (lit "event: reason" ++ [LF] ++ lit "datum: x")))
     = Some [].
Proof.
  destruct (segment_without_data_line
              (clearBox ReasonBox (appendText ReasonBox (lit "old") idle_page))
              (lit "event: reason" ++ [LF] ++ lit "datum: x")) as (E & R & _);
    [reflexivity|].
  split; [exact E|]. split; [apply R; reflexivity|].
  split; [reflexivity|]. rewrite R by reflexivity. reflexivity.
Defined.

(** ** What the cut at the blank lines keeps *)

Lemma split_NN_head b r x X :
  split (b :: r) NN = x :: X -> x = [] \/ exists x', x = b :: x'.
Proof.
  destruct r as [|c r].
  - rewrite split_NN_one. intros [= <- _]. right. eauto.
  - rewrite split_NN_two. destruct ((b =? LF) && (c =? LF)).
    + intros [= <- _]. left. reflexivity.
    + destruct (split (c :: r) NN) as [|y ys]; cbn [cons_head]; intros [= <- _];
        right; eauto.
Qed.

Lemma split_NN_head_blank b r X :
  split (b :: r) NN = [] :: X -> (b =? LF) = true.
Proof.
  destruct r as [|c r].
  - rewrite split_NN_one. discriminate.
  - rewrite split_NN_two. destruct ((b =? LF) && (c =? LF)) eqn:E.
    + intros _. apply andb_true_iff in E as [E _]. exact E.
    + destruct (split (c :: r) NN) as [|y ys]; cbn [cons_head]; discriminate.
Qed.

Lemma join_cons_head a (X : list jsstring) :
  X <> [] -> join NN (cons_head a X) = a :: join NN X.
Proof. destruct X as [|x [|y X]]; [contradiction| |]; reflexivity. Qed.

Lemma join_split_NN_both s :
  join NN (split s NN) = s /\ forall a, join NN (split (a :: s) NN) = a :: s.
Proof.
  induction s as [|b r [IHr IHbr]].
  - split; [reflexivity|]. intros a. rewrite split_NN_one. reflexivity.
  - split; [apply IHbr|]. intros a. rewrite split_NN_two.
    destruct ((a =? LF) && (b =? LF)) eqn:E.
    + apply andb_true_iff in E as [Ea Eb]. apply N.eqb_eq in Ea, Eb. subst a b.
      pose proof (split_nonempty r NN) as Hne.
      destruct (split r NN) as [|x X] eqn:Ex; [contradiction|].
      change (join NN ([] :: x :: X)) with (NN ++ join NN (x :: X)).
      rewrite IHr. reflexivity.
    + rewrite join_cons_head by apply split_nonempty.
      rewrite IHbr. reflexivity.
Qed.

Lemma join_split_NN s : join NN (split s NN) = s.
Proof. apply join_split_NN_both. Qed.

(** X5. The cut loses nothing: the parts handed over and the buffer kept,
    joined again by blank lines, are the old buffer followed by the text of
    the chunk. *)
Theorem parts_and_buffer_reassemble (td : TextDecoder) (buf : jsstring) (value : list byte) :
  join NN (snd (take_parts td buf value) ++ [snd (fst (take_parts td buf value))])
  = buf ++ snd (decode td value).
Proof.
  unfold take_parts. destruct (decode td value) as [td' text]. cbn [fst snd].
  unfold popped, pop_or_empty.
  rewrite <- app_removelast_last by apply split_nonempty.
  apply join_split_NN.
Qed.

Lemma last_cons_head a (X : list jsstring) :
  X <> [] ->
  List.last (cons_head a X) [] = match X with
                                 | [x] => a :: x
                                 | _ => List.last X []
                                 end.
Proof. destruct X as [|x [|y X]]; [contradiction| |]; reflexivity. Qed.

(** Every part holds no blank line, and every part but the last does not
    end with a line feed. *)
Lemma split_NN_parts_both s :
  (forallb blank_free (split s NN) = true
   /\ forallb (fun p => negb (ends_with_LF p)) (removelast (split s NN)) = true)
  /\ forall a,
      forallb blank_free (split (a :: s) NN) = true
      /\ forallb (fun p => negb (ends_with_LF p)) (removelast (split (a :: s) NN)) = true.
Proof.
  induction s as [|b r [[IHr1 IHr2] IHbr]].
  - split; [split; reflexivity|]. intros a. rewrite split_NN_one. split; reflexivity.
  - split; [apply IHbr|]. intros a. rewrite split_NN_two.
    destruct (IHbr b) as [Hb1 Hb2].
    destruct ((a =? LF) && (b =? LF)) eqn:E.
    + pose proof (split_nonempty r NN) as Hne.
      destruct (split r NN) as [|x X] eqn:Ex; [contradiction|].
      split; [exact IHr1|]. cbn [removelast forallb]. exact IHr2.
    + pose proof (split_nonempty (b :: r) NN) as Hne.
      destruct (split (b :: r) NN) as [|x X] eqn:Ex; [contradiction|].
      cbn [cons_head forallb] in *. apply andb_true_iff in Hb1 as [Hx HX].
      assert (blank_free (a :: x) = true) as Hax.
      { destruct (split_NN_head _ _ _ _ Ex) as [->|[x' ->]]; [reflexivity|].
        cbn [blank_free]. rewrite E. exact Hx. }
      rewrite Hax, HX. split; [reflexivity|].
      destruct X as [|y X]; [reflexivity|].
      cbn [removelast forallb] in *. apply andb_true_iff in Hb2 as [Hx2 HX2].
      rewrite HX2, andb_true_r.
      destruct x as [|c x]; [|exact Hx2].
      apply split_NN_head_blank in Ex. rewrite Ex, andb_true_r in E.
      unfold ends_with_LF. cbn [List.last]. rewrite E. reflexivity.
Qed.

(** X6. Every segment that a read hands to the router is well framed: it
    holds no blank line and does not end with a line feed; and the buffer it
    keeps holds no blank line. *)
Theorem parts_are_well_framed (td : TextDecoder) (buf : jsstring) (value : list byte) :
  forallb well_framed (snd (take_parts td buf value)) = true
  /\ blank_free (snd (fst (take_parts td buf value))) = true.
Proof.
  unfold take_parts. destruct (decode td value) as [td' text]. cbn [fst snd].
  destruct (split_NN_parts_both (buf ++ text)) as [[H1 H2] _].
  pose proof (split_nonempty (buf ++ text) NN) as Hne.
  unfold popped, pop_or_empty.
  destruct (split (buf ++ text) NN) as [|x X _] using rev_ind; [contradiction|].
  rewrite removelast_last in *. rewrite last_last.
  rewrite forallb_app in H1. apply andb_true_iff in H1 as [H1 H3].
  cbn [forallb] in H3. rewrite andb_true_r in H3. split; [|exact H3].
  clear -H1 H2. induction X as [|p ps IH]; [reflexivity|].
  cbn [forallb] in *. apply andb_true_iff in H1 as [Hp H1].
  apply andb_true_iff in H2 as [Hq H2].
  unfold well_framed. rewrite Hp, Hq. exact (IH H1 H2).
Qed.

Lemma split_NN_blank_free s : blank_free s = true -> split s NN = [s].
Proof.
  induction s as [|a s IH]; intros H; [reflexivity|].
  destruct s as [|b r]; [apply split_NN_one|].
  cbn [blank_free] in H. apply andb_true_iff in H as [Hab H].
  apply negb_true_iff in Hab. rewrite split_NN_two, Hab, (IH H). reflexivity.
Qed.

(** X7. Text that completes no blank line is kept, not dispatched: when the
    buffer with the text of the chunk holds no blank line, the read leaves
    the page untouched and the buffer is that text; so does an empty chunk
    on the buffer a read left. *)
Theorem text_before_boundary_is_kept
    (w : page) (signal : nat) (td : TextDecoder) (buf : jsstring) (value : list byte) :
  blank_free (buf ++ snd (decode td value)) = true ->
  resume w (AwaitRead signal td buf) (ReadChunk value)
  = Some (w, AwaitRead signal (fst (decode td value)) (buf ++ snd (decode td value)), []).
Proof.
  intros H. cbn [resume]. unfold take_parts.
  destruct (decode td value) as [td' text]. cbn [fst snd] in *.
  rewrite (split_NN_blank_free _ H). reflexivity.
Qed.

Lemma text_before_boundary_is_kept_witness :
  resume idle_page (AwaitRead 0 new_TextDecoder (lit "event: answer" ++ [LF]))
    (ReadChunk (bytes_of "data: x" ++ [x0a; xe4]))
  = Some (idle_page,
          AwaitRead 0 (fst (decode new_TextDecoder (bytes_of "data: x" ++ [x0a; xe4])))
            ((lit "event: answer" ++ [LF])
             ++ snd (decode new_TextDecoder (bytes_of "data: x" ++ [x0a; xe4]))), []).
Proof.
  apply (text_before_boundary_is_kept idle_page 0 new_TextDecoder
           (lit "event: answer" ++ [LF]) (bytes_of "data: x" ++ [x0a; xe4])).
  reflexivity.
Defined.

(** X8. Whatever the bytes, valid UTF-8 or not, and however they are cut
    into chunks, the number of events is the number of blank lines that a
    search from the left finds in the bytes: one less than the number of
    parts the bytes themselves split into. *)
Theorem events_counted_on_bytes (chunks : list (list byte)) :
  S (List.length (parser_loop new_TextDecoder [] chunks))
  = List.length (split (units (concat chunks)) NN).
Proof.
  rewrite parser_loop_concat. apply length_parser_loop_one.
Qed.

(** X9. A body that does not close its last segment with a blank line
    loses it: when the bytes hold no two line feeds in a row, no event at
    all comes out, however the body is cut. *)
Theorem unterminated_segment_is_lost (chunks : list (list byte)) :
  blank_free (units (concat chunks)) = true ->
  parser_loop new_TextDecoder [] chunks = [].
Proof.
  intros H. apply length_zero_iff_nil. apply eq_add_S.
  rewrite parser_loop_concat, length_parser_loop_one.
  rewrite (split_NN_blank_free _ H). reflexivity.
Qed.

Lemma unterminated_segment_is_lost_witness :
  parser_loop new_TextDecoder []
    [bytes_of "event: answer" ++ [x0a]; bytes_of "data: never shown" ++ [x0a]] = [].
Proof.
  apply (unterminated_segment_is_lost
           [bytes_of "event: answer" ++ [x0a]; bytes_of "data: never shown" ++ [x0a]]).
  reflexivity.
Defined.

(** X10. From any state of the loop (decoder, buffer, page), the reads of
    the pieces of a body leave the page and the task that one read of the
    whole leaves: the sinks, the status and the buttons do not depend on the
    cutting. *)
Theorem page_chunking_independent
    (w : page) (signal : nat) (td : TextDecoder) (buf : jsstring)
    (value : list byte) (rest : list (list byte)) :
  feed w (AwaitRead signal td buf) (value :: rest)
  = feed w (AwaitRead signal td buf) [value ++ concat rest].
Proof.
  revert w td buf value. induction rest as [|c rest IH]; intros w td buf value.
  - cbn [concat]. rewrite app_nil_r. reflexivity.
  - cbn [concat]. rewrite (feed_read _ _ _ _ (value ++ _)), take_parts_app.
    rewrite (feed_read _ _ _ _ value).
    destruct (take_parts td buf value) as [[td1 buf1] parts1].
    rewrite IH, feed_read.
    destruct (take_parts td1 buf1 (c ++ concat rest)) as [[td2 buf2] parts2].
    cbn [feed]. unfold dispatch_parts. rewrite fold_left_app. reflexivity.
Qed.

(** ** Unescaping *)

Lemma unescape_nil : replaceAll [] (lit "\n") [LF] = [].
Proof. reflexivity. Qed.

Lemma unescape_one a : replaceAll [a] (lit "\n") [LF] = [a].
Proof.
  unfold replaceAll. cbn [replaceAll_go startsWith lit list_ascii_of_string map].
  rewrite andb_false_r. reflexivity.
Qed.

Lemma unescape_two a b r :
  replaceAll (a :: b :: r) (lit "\n") [LF]
  = if (a =? 92) && (b =? 110) then LF :: replaceAll r (lit "\n") [LF]
    else a :: replaceAll (b :: r) (lit "\n") [LF].
Proof.
  unfold replaceAll.
  change (lit "\n") with [92; 110].
  cbn [replaceAll_go startsWith List.length Nat.pred app].
  rewrite andb_true_r, (N.eqb_sym 92 a), (N.eqb_sym 110 b).
  destruct ((a =? 92) && (b =? 110)) eqn:E; [|reflexivity].
  apply andb_true_iff in E as [_ Eb]. apply N.eqb_eq in Eb. subst b. reflexivity.
Qed.

(** What the unescaped text begins with. *)
Lemma unescape_head b r :
  exists c t, replaceAll (b :: r) (lit "\n") [LF] = c :: t /\ (c = b \/ c = LF).
Proof.
  destruct r as [|c r].
  - rewrite unescape_one. eauto.
  - rewrite unescape_two. destruct ((b =? 92) && (c =? 110)); eauto.
Qed.

Lemma has_escape_cons a b t :
  has_escape (a :: b :: t) = ((a =? 92) && (b =? 110)) || has_escape (b :: t).
Proof. reflexivity. Qed.

Lemma unescape_no_escape_both s :
  has_escape (replaceAll s (lit "\n") [LF]) = false
  /\ forall a, has_escape (replaceAll (a :: s) (lit "\n") [LF]) = false.
Proof.
  induction s as [|b r [IHr IHbr]].
  - split; [reflexivity|]. intros a. rewrite unescape_one. reflexivity.
  - split; [apply IHbr|]. intros a. rewrite unescape_two.
    destruct ((a =? 92) && (b =? 110)) eqn:E.
    + destruct r as [|c r]; [reflexivity|].
      destruct (unescape_head c r) as (x & t & Ex & Hx). rewrite Ex in *.
      rewrite has_escape_cons, IHr. reflexivity.
    + destruct (unescape_head b r) as (x & t & Ex & Hx). specialize (IHbr b).
      rewrite Ex in *. rewrite has_escape_cons, IHbr, orb_false_r.
      destruct Hx as [-> | ->]; [exact E|]. apply andb_false_r.
Qed.

Lemma unescape_plain s :
  forallb (fun c => negb (c =? 92)) s = true -> replaceAll s (lit "\n") [LF] = s.
Proof.
  induction s as [|a s IH]; intros H; [reflexivity|].
  cbn [forallb] in H. apply andb_true_iff in H as [Ha H]. apply negb_true_iff in Ha.
  destruct s as [|b r]; [apply unescape_one|].
  rewrite unescape_two, Ha, (IH H). reflexivity.
Qed.

(** X11. After the unescaping of lines 163 and 165 no escaped line feed is
    left in the text, whatever the payload was; a payload without any
    backslash is appended as it is. *)
Theorem unescape_is_complete (data : jsstring) :
  has_escape (replaceAll data (lit "\n") [LF]) = false
  /\ (forallb (fun c => negb (c =? 92)) data = true ->
      replaceAll data (lit "\n") [LF] = data).
Proof.
  split; [apply unescape_no_escape_both|apply unescape_plain].
Qed.

Lemma unescape_is_complete_witness :
  has_escape (replaceAll (lit "a\\n\nb") (lit "\n") [LF]) = false
  /\ replaceAll (lit "plain text") (lit "\n") [LF] = lit "plain text".
Proof.
  destruct (unescape_is_complete (lit "a\\n\nb")) as [H _].
  destruct (unescape_is_complete (lit "plain text")) as [_ P].
  split; [exact H|]. apply P. reflexivity.
Defined.

(** ** What reading never does *)

Lemma extends_refl o : extends o o.
Proof. exists []. destruct o; cbn; rewrite ?app_nil_r; reflexivity. Qed.

Lemma extends_trans a b c : extends a b -> extends b c -> extends a c.
Proof.
  intros [s1 ->] [s2 ->]. exists (s1 ++ s2).
  destruct a; cbn; rewrite ?app_assoc; reflexivity.
Qed.

Lemma same_session_refl w : same_session w w.
Proof. repeat split. Qed.

Lemma same_session_trans w1 w2 w3 :
  same_session w1 w2 -> same_session w2 w3 -> same_session w1 w3.
Proof.
  unfold same_session. intros (? & ? & ? & ? & ? & ? & ?) (? & ? & ? & ? & ? & ? & ?).
  repeat split; congruence.
Qed.

Lemma dispatch_keeps w ev :
  same_session w (dispatch w ev)
  /\ extends (reasonBox w) (reasonBox (dispatch w ev))
  /\ extends (answerBox w) (answerBox (dispatch w ev)).
Proof.
  unfold dispatch.
  repeat match goal with
         | |- context [if ?c then _ else _] => destruct c
         end;
    (split; [repeat split|split]);
    first [apply extends_refl | eexists; reflexivity].
Qed.

Lemma dispatch_parts_keeps parts w :
  same_session w (dispatch_parts w parts)
  /\ extends (reasonBox w) (reasonBox (dispatch_parts w parts))
  /\ extends (answerBox w) (answerBox (dispatch_parts w parts)).
Proof.
  unfold dispatch_parts. revert w. induction parts as [|chunk parts IH]; intros w.
  - split; [apply same_session_refl|split; apply extends_refl].
  - cbn [fold_left].
    destruct (dispatch_keeps w (parse_segment chunk)) as (S1 & R1 & A1).
    destruct (IH (dispatch w (parse_segment chunk))) as (S2 & R2 & A2).
    split; [exact (same_session_trans _ _ _ S1 S2)|].
    split; eapply extends_trans; eassumption.
Qed.

(** X12. Reading never fails and only appends: whatever bytes the chunks
    hold, the task goes on awaiting the next read, no request is sent, the
    text that was in the reason and answer boxes is still the start of what
    they show, and the dialog and runtime identifiers, the controllers, the
    history and the cards are untouched. *)
Theorem reading_only_appends
    (chunks : list (list byte)) (w : page) (signal : nat) (td : TextDecoder)
    (buf : jsstring) :
  exists w' td' buf',
    feed w (AwaitRead signal td buf) chunks = Some (w', AwaitRead signal td' buf')
    /\ same_session w w'
    /\ extends (reasonBox w) (reasonBox w')
    /\ extends (answerBox w) (answerBox w').
Proof.
  revert w td buf. induction chunks as [|value rest IH]; intros w td buf.
  - exists w, td, buf. split; [reflexivity|].
    split; [apply same_session_refl|split; apply extends_refl].
  - rewrite feed_read. destruct (take_parts td buf value) as [[td1 buf1] parts].
    destruct (dispatch_parts_keeps parts w) as (S1 & R1 & A1).
    destruct (IH (dispatch_parts w parts) td1 buf1) as (w' & td' & buf' & E & S2 & R2 & A2).
    exists w', td', buf'. split; [exact E|].
    split; [exact (same_session_trans _ _ _ S1 S2)|].
    split; eapply extends_trans; eassumption.
Qed.

Lemma dispatch_elements w ev : same_elements w (dispatch w ev).
Proof.
  unfold dispatch, same_elements.
  repeat match goal with
         | |- context [if ?c then _ else _] => destruct c
         end;
    cbn;
    destruct (sendBtn w), (stopBtn w), (reasonBox w), (answerBox w), (statusEl w);
    repeat split.
Qed.

Lemma same_elements_refl w : same_elements w w.
Proof. repeat split. Qed.

Lemma same_elements_trans w1 w2 w3 :
  same_elements w1 w2 -> same_elements w2 w3 -> same_elements w1 w3.
Proof.
  unfold same_elements. intros (? & ? & ? & ? & ? & ? & ?) (? & ? & ? & ? & ? & ? & ?).
  repeat split; congruence.
Qed.

Lemma dispatch_parts_elements parts w : same_elements w (dispatch_parts w parts).
Proof.
  unfold dispatch_parts. revert w. induction parts as [|chunk parts IH]; intros w.
  - apply same_elements_refl.
  - cbn [fold_left]. eapply same_elements_trans; [apply dispatch_elements|apply IH].
Qed.



(** ** Initialisation, whatever the card files answer *)

Lemma initDialog_reply_resume w a r_ok js_ok js_error did :
  resume w (AwaitInit a) (InitReply r_ok js_ok js_error did)
  = match initDialog_reply r_ok js_ok js_error did w with
    | inl e => Some (w, Settled (Rejected e), [])
    | inr w' => Some (connect a w')
    end.
Proof.
  unfold initDialog_reply. cbn [resume].
  destruct (negb r_ok || negb js_ok); reflexivity.
Qed.

(** The last step of a run. *)
Lemma run_one p r reqs w' p' :
  run p [r] reqs w' p' -> exists w, resume w p r = Some (w', p', reqs).
Proof.
  intros H. apply run_inv in H as (w & w1 & p1 & reqs1 & Hr & H).
  destruct H as [(_ & -> & -> & ->)|(reqs2 & _ & H)]; [eauto|].
  destruct (run_nil _ _ _ _ H).
Qed.

Lemma app_one_not_nil {A} (l : list A) x : l ++ [x] <> [].
Proof. destruct l; discriminate. Qed.

Lemma run_two p r rs reqs w' p' :
  rs <> [] ->
  run p (r :: rs) reqs w' p' ->
  exists w w1 p1 reqs1 reqs2,
    resume w p r = Some (w1, p1, reqs1)
    /\ reqs = reqs1 ++ reqs2 /\ run p1 rs reqs2 w' p'.
Proof.
  intros Hne H. apply run_inv in H as (w & w1 & p1 & reqs1 & Hr & H).
  destruct H as [(E & _)|(reqs2 & -> & H)]; [contradiction|]. eauto 10.
Qed.

(** From the call to the reply of the initialisation: one or two card
    files are asked, then the cards are posted. *)
Lemma run_to_init_reply a pre reply reqs w' p' :
  (exists r_ok js_ok js_error did, reply = InitReply r_ok js_ok js_error did) ->
  run (AwaitCards a) (pre ++ [reply]) reqs w' p' ->
  exists w0 rid last,
    resume w0 (AwaitInit a) reply = Some (w', p', last)
    /\ GET_cards :: reqs
       = card_requests pre ++ POST_init rid (cards_from pre) :: last.
Proof.
  intros (r_ok & js_ok & js_error & did & ->) H.
  destruct pre as [|r1 pre]; cbn [app] in H.
  { apply run_one in H as (w & Hr). discriminate Hr. }
  apply (run_two _ _ _ _ _ _ (app_one_not_nil _ _)) in H as (w & w1 & p1 & reqs1 & reqs2 & Hr & -> & H).
  destruct r1; resumed Hr.
  - (* the first file failed *)
    destruct pre as [|r2 pre]; cbn [app] in H.
    { apply run_one in H as (w0 & Hr). discriminate Hr. }
    apply (run_two _ _ _ _ _ _ (app_one_not_nil _ _)) in H as (wb & w2 & p2 & reqs3 & reqs4 & Hr & -> & H).
    destruct r2; resumed Hr.
    + destruct pre as [|r3 pre]; cbn [app] in H.
      * apply run_one in H as (w0 & Hr). exists w0, (RUNTIME_ID wb), reqs4.
        split; [exact Hr|reflexivity].
      * apply (run_two _ _ _ _ _ _ (app_one_not_nil _ _)) in H as (wc & w3 & p3 & reqs5 & reqs6 & Hr & -> & H).
        destruct r3; resumed Hr;
          first [ destruct (run_settled _ _ _ _ _ H)
                | apply run_after_connect in H; [destruct H|reflexivity] ].
    + destruct pre as [|r3 pre]; cbn [app] in H.
      * apply run_one in H as (w0 & Hr). exists w0, (RUNTIME_ID wb), reqs4.
        split; [exact Hr|reflexivity].
      * apply (run_two _ _ _ _ _ _ (app_one_not_nil _ _)) in H as (wc & w3 & p3 & reqs5 & reqs6 & Hr & -> & H).
        destruct r3; resumed Hr;
          first [ destruct (run_settled _ _ _ _ _ H)
                | apply run_after_connect in H; [destruct H|reflexivity] ].
  - (* the first file answered *)
    destruct pre as [|r3 pre]; cbn [app] in H.
    + apply run_one in H as (w0 & Hr). exists w0, (RUNTIME_ID w), reqs2.
      split; [exact Hr|reflexivity].
    + apply (run_two _ _ _ _ _ _ (app_one_not_nil _ _)) in H as (wc & w3 & p3 & reqs5 & reqs6 & Hr & -> & H).
      destruct r3; resumed Hr;
        first [ destruct (run_settled _ _ _ _ _ H)
              | apply run_after_connect in H; [destruct H|reflexivity] ].
Qed.

(** X14. With no dialog identifier, a call of [startStream] whose
    initialisation is refused, by the status of the response or by the [ok]
    of its body, rejects with the [error] of the body, or with
    [init failed] when the body has none or an empty one; all that was sent
    is the requests for the card files and the one initialisation request
    with the cards of the first file that answered. *)
Theorem init_refused
    (w : page) (a : args) (pre : list settled) (r_ok js_ok : bool)
    (js_error : option jsstring) (did : jsstring)
    (reqs : list request) (w' : page) (p' : pc) :
  dialogId w = [] ->
  negb r_ok || negb js_ok = true ->
  run (snd (fst (startStream a w)))
      (pre ++ [InitReply r_ok js_ok js_error did]) reqs w' p' ->
  p' = Settled (Rejected (Error (or_else js_error (lit "init failed"))))
  /\ (exists rid,
         snd (startStream a w) ++ reqs
         = card_requests pre ++ [POST_init rid (cards_from pre)])
  /\ or_else js_error (lit "init failed")
     = match js_error with
       | Some (c :: m) => c :: m
       | _ => lit "init failed"
       end.
Proof.
  intros Hd Hf H. unfold startStream, initDialog, loadCards in *.
  rewrite Hd in *. cbn [truthy fst snd app] in *.
  apply run_to_init_reply in H as (w0 & rid & last & Hr & E); [|eauto 10].
  cbn [resume] in Hr. rewrite Hf in Hr. injection Hr as <- <- <-.
  split; [reflexivity|]. split; [exists rid; exact E|].
  destruct js_error as [[|c m]|]; reflexivity.
Qed.

Lemma init_refused_witness :
  exists w',
    run (snd (fst (startStream (default_args (lit "hi")) unopened_page)))
      ([Cards [lit "The Fool"]] ++ [InitReply false true None []])
      ([POST_init (lit "run-1") [lit "The Fool"]] ++ []) w'
      (Settled (Rejected (Error (lit "init failed"))))
    /\ snd (startStream (default_args (lit "hi")) unopened_page)
       ++ [POST_init (lit "run-1") [lit "The Fool"]] ++ []
       = [GET_cards; POST_init (lit "run-1") [lit "The Fool"]].
Proof.
  assert (exists w',
             run (snd (fst (startStream (default_args (lit "hi")) unopened_page)))
               ([Cards [lit "The Fool"]] ++ [InitReply false true None []])
               ([POST_init (lit "run-1") [lit "The Fool"]] ++ []) w'
               (Settled (Rejected (Error (lit "init failed"))))) as [w' R].
  { eexists. eapply (run_more unopened_page); [reflexivity|].
    eapply (run_last unopened_page). reflexivity. }
  exists w'. split; [exact R|].
  destruct (init_refused unopened_page (default_args (lit "hi"))
              [Cards [lit "The Fool"]] false true None [] _ _ _ eq_refl eq_refl R)
    as (_ & (rid & E) & _).
  reflexivity.
Defined.

(** X15. With no dialog identifier, a call of [startStream] whose
    initialisation is accepted goes on in the same call: the dialog
    identifier of the reply is stored and is the one the streaming request
    carries, with the text and the sampling parameters of the call; the
    requests sent are those for the card files, the initialisation with the
    cards of the first file that answered (none when both failed), then the
    streaming request. *)
Theorem init_then_stream
    (w : page) (a : args) (pre : list settled) (js_error : option jsstring)
    (did : jsstring) (reqs : list request) (w' : page) (p' : pc) :
  dialogId w = [] ->
  run (snd (fst (startStream a w)))
      (pre ++ [InitReply true true js_error did]) reqs w' p' ->
  exists rid rid' signal,
    p' = AwaitStream signal
    /\ snd (startStream a w) ++ reqs
       = card_requests pre
         ++ [POST_init rid (cards_from pre);
             POST_stream rid' did (userText a) (temperature a) (top_p a) signal]
    /\ dialogId w' = did
    /\ controller w' = Some signal
    /\ streaming w' = true.
Proof.
  intros Hd H. unfold startStream, initDialog, loadCards in *.
  rewrite Hd in *. cbn [truthy fst snd app] in *.
  apply run_to_init_reply in H as (w0 & rid & last & Hr & E); [|eauto 10].
  cbn [resume negb orb] in Hr. unfold connect in Hr. injection Hr as <- <- <-.
  exists rid, (RUNTIME_ID w0), (controllers w0).
  split; [reflexivity|]. split; [exact E|]. repeat split.
Qed.

Lemma init_then_stream_witness :
  exists w' reqs signal,
    run (snd (fst (startStream (default_args (lit "hi")) unopened_page)))
      ([Rejects (Error (lit "404 /static/Cards.json"));
        Rejects (Error (lit "404 ./Cards.json"))]
       ++ [InitReply true true None (lit "d7")]) reqs w' (AwaitStream signal)
    /\ dialogId w' = lit "d7".
Proof.
  assert (exists w' reqs signal,
             run (snd (fst (startStream (default_args (lit "hi")) unopened_page)))
               ([Rejects (Error (lit "404 /static/Cards.json"));
                 Rejects (Error (lit "404 ./Cards.json"))]
                ++ [InitReply true true None (lit "d7")]) reqs w' (AwaitStream signal))
    as (w' & reqs & signal & R).
  { do 3 eexists. eapply (run_more unopened_page); [reflexivity|].
    eapply (run_more unopened_page); [reflexivity|].
    eapply (run_last unopened_page). reflexivity. }
  exists w', reqs, signal. split; [exact R|].
  destruct (init_then_stream unopened_page (default_args (lit "hi"))
              [Rejects (Error (lit "404 /static/Cards.json"));
               Rejects (Error (lit "404 ./Cards.json"))] None (lit "d7") _ _ _ eq_refl R)
    as (_ & _ & _ & _ & _ & D & _).
  exact D.
Defined.

(** ** The send button and the Enter key *)

Lemma trim_nil_blank s : trim s = [] -> forallb isWhiteSpace s = true.
Proof.
  intros E. destruct (trim_spec s) as (ws1 & ws2 & Es & H1 & H2 & _).
  rewrite E in Es. cbn [app] in Es. rewrite Es, forallb_app, H1, H2. reflexivity.
Qed.

Lemma truthy_nil s : truthy s = false <-> s = [].
Proof. destruct s; split; intros H; first [reflexivity|discriminate]. Qed.

(** X16. The click on the send button starts nothing exactly when the input
    is blank (no input box, empty, or white space only); otherwise it calls
    [startStream] with the default parameters and the input without the
    white space at its two ends, which is what the server is sent as
    [user_text]. *)
Theorem send_click_trims (value : option jsstring) (w : page) :
  (send_click value w = None <-> forallb isWhiteSpace (or_else value []) = true)
  /\ (forall out,
         send_click value w = Some out ->
         out = startStream (default_args (trim (or_else value []))) w
         /\ trim (or_else value []) <> []
         /\ starts_black (trim (or_else value []))
         /\ starts_black (rev (trim (or_else value [])))).
Proof.
  unfold send_click. split.
  - destruct (truthy (trim (or_else value []))) eqn:T; split; intros H.
    + discriminate H.
    + rewrite (trim_blank _ H) in T. discriminate T.
    + apply trim_nil_blank, truthy_nil, T.
    + reflexivity.
  - intros out H. destruct (truthy (trim (or_else value []))) eqn:T; [|discriminate H].
    injection H as <-. split; [reflexivity|].
    split; [intros E; rewrite E in T; discriminate T|].
    destruct (trim_spec (or_else value [])) as (_ & _ & _ & _ & _ & B1 & B2).
    split; assumption.
Qed.

(** X17. A key press in the input box does something only when it is Enter
    without Shift: then the default action is prevented and the handler
    does what the click on the send button does with that input; for any
    other key, and for Shift+Enter, nothing is prevented and nothing is
    called. *)
Theorem keydown_is_send_click (e : key_event) (value : jsstring) (w : page) :
  (key e = lit "Enter" /\ shiftKey e = false ->
   input_keydown e value w = (true, send_click (Some value) w))
  /\ (key e <> lit "Enter" \/ shiftKey e = true ->
      input_keydown e value w = (false, None)).
Proof.
  unfold input_keydown, send_click. split.
  - intros [K S]. rewrite S. apply jsstring_eqb_eq in K. rewrite K. reflexivity.
  - intros [K|S].
    + destruct (jsstring_eqb (key e) (lit "Enter")) eqn:E; [|reflexivity].
      apply jsstring_eqb_eq in E. contradiction.
    + rewrite S, andb_false_r. reflexivity.
Qed.

Lemma keydown_is_send_click_witness :
  input_keydown {| key := lit "Enter"; shiftKey := false |} (lit "  why?  ") idle_page
  = (true, send_click (Some (lit "  why?  ")) idle_page)
  /\ input_keydown {| key := lit "Enter"; shiftKey := true |} (lit "why?") idle_page
     = (false, None).
Proof.
  split.
  - apply (keydown_is_send_click {| key := lit "Enter"; shiftKey := false |}).
    split; reflexivity.
  - apply (keydown_is_send_click {| key := lit "Enter"; shiftKey := true |}).
    right. reflexivity.
Defined.

Lemma send_click_trims_witness :
  send_click (Some ([9] ++ lit " ")) idle_page = None
  /\ trim (or_else (Some (lit "  why?  ")) []) <> [].
Proof.
  destruct (send_click_trims (Some ([9] ++ lit " ")) idle_page) as [[_ B] _].
  destruct (send_click_trims (Some (lit "  why?  ")) idle_page) as [_ T].
  split; [apply B; reflexivity|].
  apply (T (startStream (default_args (lit "why?")) idle_page)). reflexivity.
Defined.

(** ** The page load *)

Lemma boot_exec_cons w p r rs w' p' reqs :
  boot_exec w p (r :: rs) = Some (w', p', reqs) ->
  exists w1 p1 reqs1 reqs2,
    boot_resume w p r = Some (w1, p1, reqs1)
    /\ boot_exec w1 p1 rs = Some (w', p', reqs2)
    /\ reqs = reqs1 ++ reqs2.
Proof.
  cbn [boot_exec].
  destruct (boot_resume w p r) as [[[w1 p1] reqs1]|] eqn:E1; [|discriminate].
  destruct (boot_exec w1 p1 rs) as [[[w2 p2] reqs2]|] eqn:E2; [|discriminate].
  intros [= <- <- <-]. exists w1, p1, reqs1, reqs2. repeat split. exact E2.
Qed.

Lemma boot_exec_ready w x rs w' p' reqs :
  boot_exec w (BootReady x) rs = Some (w', p', reqs) ->
  rs = [] /\ w' = w /\ p' = BootReady x /\ reqs = [].
Proof.
  destruct rs as [|r rs]; [intros [= <- <- <-]; repeat split|].
  intros H. apply boot_exec_cons in H as (? & ? & ? & ? & Hr & _). discriminate Hr.
Qed.

Lemma boot_exec_history w rs w' x reqs :
  boot_exec w BootHistory rs = Some (w', BootReady x, reqs) ->
  x = None /\ reqs = [] /\ dialogId w' = dialogId w /\ statusEl w' = statusEl w
  /\ RUNTIME_ID w' = RUNTIME_ID w.
Proof.
  destruct rs as [|r rs]; [discriminate|].
  intros H. apply boot_exec_cons in H as (w1 & p1 & reqs1 & reqs2 & Hr & H & ->).
  destruct r; cbn in Hr; try discriminate Hr; injection Hr as <- <- <-;
    apply boot_exec_ready in H as (_ & -> & [= ->] & ->); repeat split.
Qed.

Lemma boot_exec_init w rs w' x reqs :
  boot_exec w BootInit rs = Some (w', BootReady x, reqs) ->
  match x with
  | Some _ =>
      statusEl w' = option_map (fun _ => txt_init_failed) (statusEl w)
      /\ dialogId w' = dialogId w /\ reqs = []
  | None =>
      statusEl w' = option_map (fun _ => txt_session_ready ++ dialogId w') (statusEl w)
      /\ reqs = [GET_history (RUNTIME_ID w) (dialogId w')]
  end.
Proof.
  destruct rs as [|r rs]; [discriminate|].
  intros H. apply boot_exec_cons in H as (w1 & p1 & reqs1 & reqs2 & Hr & H & ->).
  destruct r; cbn [boot_resume] in Hr; try discriminate Hr.
  - injection Hr as <- <- <-. apply boot_exec_ready in H as (_ & -> & [= ->] & ->).
    repeat split.
  - unfold initDialog_reply in Hr.
    destruct (negb r_ok || negb js_ok); injection Hr as <- <- <-.
    + apply boot_exec_ready in H as (_ & -> & [= ->] & ->). repeat split.
    + apply boot_exec_history in H as (-> & -> & Hd & Hs & Hr).
      rewrite Hs, Hd. cbn. destruct (statusEl w); split; reflexivity.
Qed.

Lemma boot_exec_cards w p rs w' x reqs :
  p = BootCards \/ p = BootCardsFallback ->
  boot_exec w p rs = Some (w', BootReady x, reqs) ->
  match x with
  | Some _ =>
      statusEl w' = option_map (fun _ => txt_init_failed) (statusEl w)
      /\ dialogId w' = dialogId w
      /\ existsb is_history_request reqs = false
  | None =>
      statusEl w' = option_map (fun _ => txt_session_ready ++ dialogId w') (statusEl w)
      /\ In (GET_history (RUNTIME_ID w) (dialogId w')) reqs
  end
  /\ existsb is_stream_request reqs = false.
Proof.
  assert (forall w0 rs0 reqs0,
             boot_exec w0 BootInit rs0 = Some (w', BootReady x, reqs0) ->
             forall cs pre,
               statusEl (show_cards cs w) = statusEl w0 ->
               dialogId (show_cards cs w) = dialogId w0 ->
               RUNTIME_ID w = RUNTIME_ID w0 ->
               existsb is_history_request pre = false ->
               existsb is_stream_request pre = false ->
               match x with
               | Some _ =>
                   statusEl w' = option_map (fun _ => txt_init_failed) (statusEl w)
                   /\ dialogId w' = dialogId w
                   /\ existsb is_history_request (pre ++ reqs0) = false
               | None =>
                   statusEl w'
                   = option_map (fun _ => txt_session_ready ++ dialogId w') (statusEl w)
                   /\ In (GET_history (RUNTIME_ID w) (dialogId w')) (pre ++ reqs0)
               end
               /\ existsb is_stream_request (pre ++ reqs0) = false) as Hinit.
  { intros w0 rs0 reqs0 H cs pre Hs Hd Hr Hh Hst.
    apply boot_exec_init in H. rewrite !existsb_app, Hh, Hst.
    cbn in Hs, Hd. rewrite <- Hs, <- Hd in H. destruct x.
    - destruct H as (H1 & H2 & ->). repeat split; assumption.
    - destruct H as (H1 & ->). rewrite Hr. split; [split|reflexivity].
      + exact H1.
      + apply in_or_app. right. left. reflexivity. }
  intros Hp H. destruct rs as [|r rs]; [destruct Hp as [-> | ->]; discriminate|].
  apply boot_exec_cons in H as (w1 & p1 & reqs1 & reqs2 & Hr & H & ->).
  destruct Hp as [-> | ->]; destruct r; cbn [boot_resume] in Hr; try discriminate Hr;
    injection Hr as <- <- <-.
  - (* the first file failed *)
    destruct rs as [|r rs]; [discriminate|].
    apply boot_exec_cons in H as (w2 & p2 & reqs3 & reqs4 & Hr & H & ->).
    destruct r; cbn [boot_resume] in Hr; try discriminate Hr; injection Hr as <- <- <-.
    + rewrite app_assoc. eapply (Hinit _ _ _ H []); reflexivity.
    + rewrite app_assoc. eapply (Hinit _ _ _ H cards); reflexivity.
  - eapply (Hinit _ _ _ H cards); reflexivity.
  - eapply (Hinit _ _ _ H []); reflexivity.
  - eapply (Hinit _ _ _ H cards); reflexivity.
Qed.

(** X18. When the page load ends with a warning (the initialisation was
    refused or could not be reached), the status shows the failure text, the
    dialog identifier is what it was, and neither the history nor a stream
    was asked for; the listeners are registered all the same, and with the
    identifier still empty the first message sent initialises again. *)
Theorem boot_failure_is_reported
    (w : page) (rs : list settled) (w' : page) (e : exn) (reqs : list request) :
  boot_exec (fst (fst (boot w))) (snd (fst (boot w))) rs
  = Some (w', BootReady (Some e), reqs) ->
  statusEl w' = option_map (fun _ => txt_init_failed) (statusEl w)
  /\ dialogId w' = dialogId w
  /\ existsb is_history_request (snd (boot w) ++ reqs) = false
  /\ existsb is_stream_request (snd (boot w) ++ reqs) = false
  /\ (dialogId w = [] -> forall a, startStream a w' = initDialog a w').
Proof.
  cbn [boot fst snd]. intros H.
  apply boot_exec_cards in H as ((Hs & Hd & Hh) & Hst); [|left; reflexivity].
  split; [exact Hs|]. split; [exact Hd|]. cbn [app existsb].
  split; [exact Hh|]. split; [exact Hst|].
  intros E a. unfold startStream. rewrite Hd, E. reflexivity.
Qed.

Lemma boot_failure_is_reported_witness :
  exists w',
    boot_exec (fst (fst (boot unopened_page))) (snd (fst (boot unopened_page)))
      [Cards []; Rejects (Error (lit "Failed to fetch"))]
    = Some (w', BootReady (Some (Error (lit "Failed to fetch"))),
            [POST_init (lit "run-1") []])
    /\ statusEl w' = Some txt_init_failed
    /\ startStream (default_args (lit "hi")) w' = initDialog (default_args (lit "hi")) w'.
Proof.
  eexists. split; [reflexivity|].
  destruct (boot_failure_is_reported unopened_page
              [Cards []; Rejects (Error (lit "Failed to fetch"))] _ _ _ eq_refl)
    as (S & _ & _ & _ & I).
  split; [exact S|]. apply I. reflexivity.
Defined.



(** ** The controllers of the streams *)

Lemma signals_apart_snoc_none n ts p :
  signals_apart n ts -> signal_of p = None -> signals_apart n (ts ++ [p]).
Proof.
  intros [Hb Hd] Hp. split.
  - intros i q c Hi Hq. apply lookup_snoc_Some in Hi as [[_ Hi]|[_ <-]];
      [eauto|congruence].
  - intros i j q q' c Hi Hj Hq Hq'.
    apply lookup_snoc_Some in Hi as [[_ Hi]|[_ <-]]; [|congruence].
    apply lookup_snoc_Some in Hj as [[_ Hj]|[_ <-]]; [|congruence].
    eauto.
Qed.

Lemma signals_apart_snoc_new n ts p :
  signals_apart n ts -> signal_of p = Some n -> signals_apart (S n) (ts ++ [p]).
Proof.
  intros [Hb Hd] Hp. split.
  - intros i q c Hi Hq. apply lookup_snoc_Some in Hi as [[_ Hi]|[_ <-]].
    + specialize (Hb _ _ _ Hi Hq). lia.
    + assert (c = n) by congruence. lia.
  - intros i j q q' c Hi Hj Hq Hq'.
    apply lookup_snoc_Some in Hi as [[_ Hi]|[-> <-]];
      apply lookup_snoc_Some in Hj as [[_ Hj]|[-> <-]].
    + eauto.
    + specialize (Hb _ _ _ Hi Hq). assert (c = n) by congruence. lia.
    + specialize (Hb _ _ _ Hj Hq'). assert (c = n) by congruence. lia.
    + reflexivity.
Qed.

Lemma signals_apart_insert_same n ts i p p' :
  signals_apart n ts -> ts !! i = Some p ->
  signal_of p' = None \/ signal_of p' = signal_of p ->
  signals_apart n (<[i:=p']> ts).
Proof.
  intros [Hb Hd] Hi Hp. split.
  - intros j q c Hj Hq. apply list_lookup_insert_Some in Hj as [(-> & <- & _)|[_ Hj]].
    + destruct Hp as [Hp|Hp]; [congruence|]. rewrite Hp in Hq. eauto.
    + eauto.
  - intros j k q q' c Hj Hk Hq Hq'.
    apply list_lookup_insert_Some in Hj as [(-> & <- & _)|[Nj Hj]];
      apply list_lookup_insert_Some in Hk as [(E & <- & _)|[Nk Hk]].
    + exact E.
    + destruct Hp as [Hp|Hp]; [congruence|]. rewrite Hp in Hq. eauto.
    + subst k. destruct Hp as [Hp|Hp]; [congruence|]. rewrite Hp in Hq'. eauto.
    + eauto.
Qed.

Lemma signals_apart_insert_new n ts i p' :
  signals_apart n ts -> signal_of p' = Some n ->
  signals_apart (S n) (<[i:=p']> ts).
Proof.
  intros [Hb Hd] Hp. split.
  - intros j q c Hj Hq. apply list_lookup_insert_Some in Hj as [(-> & <- & _)|[_ Hj]].
    + assert (c = n) by congruence. lia.
    + specialize (Hb _ _ _ Hj Hq). lia.
  - intros j k q q' c Hj Hk Hq Hq'.
    apply list_lookup_insert_Some in Hj as [(-> & <- & _)|[Nj Hj]];
      apply list_lookup_insert_Some in Hk as [(E & <- & _)|[Nk Hk]].
    + exact E.
    + specialize (Hb _ _ _ Hk Hq'). assert (c = n) by congruence. lia.
    + specialize (Hb _ _ _ Hj Hq). assert (c = n) by congruence. lia.
    + eauto.
Qed.

(** A resumed task keeps the controllers as they are and its own signal,
    unless it is the one that connects: then it creates the next one. *)
Lemma resume_controllers w p r w' p' reqs :
  resume w p r = Some (w', p', reqs) ->
  (controller w' = controller w /\ controllers w' = controllers w
   /\ (signal_of p' = None \/ signal_of p' = signal_of p))
  \/ (controller w' = Some (controllers w) /\ controllers w' = S (controllers w)
      /\ signal_of p' = Some (controllers w)).
Proof.
  intros Hr. destruct p as [a|a|a|signal|signal td buf| | |o]; destruct r;
    try discriminate Hr.
  all: try (resumed Hr; left; repeat split;
            first [left; reflexivity|right; reflexivity]).
  - (* the reply to the init request *)
    cbn [resume] in Hr. destruct (negb r_ok || negb js_ok).
    + injection Hr as <- <- <-. left. repeat split. left. reflexivity.
    + injection Hr as <- <- <-. right. repeat split.
  - (* the read failed *)
    cbn [resume] in Hr. injection Hr as <- <- <-.
    left. destruct (streaming w); repeat split; left; reflexivity.
  - (* a chunk was read *)
    cbn [resume] in Hr. destruct (take_parts td buf value) as [[td' buf'] parts].
    injection Hr as <- <- <-.
    destruct (dispatch_parts_keeps parts w) as ((_ & _ & Hc & Hn & _) & _).
    left. repeat split; [exact Hc|exact Hn|right; reflexivity].
Qed.

Lemma numbered_step s a s' : numbered s -> step s a = Some s' -> numbered s'.
Proof.
  intros [Hc Hs] H. destruct a as [a| |i r]; cbn [step] in H.
  - (* startStream *)
    injection H as <-. unfold numbered, startStream, initDialog, loadCards.
    destruct (truthy (dialogId (browser s))); cbn.
    + split; [reflexivity|].
      apply signals_apart_snoc_new; [exact Hs|reflexivity].
    + split; [exact Hc|].
      apply signals_apart_snoc_none; [exact Hs|reflexivity].
  - (* stopStream *)
    injection H as <-. unfold stopStream, abort_controller.
    unfold numbered.
    destruct (controller (browser s)) eqn:E; cbn; rewrite ?E;
      (split; [exact Hc|]);
      apply signals_apart_snoc_none; try exact Hs; reflexivity.
  - (* a task is resumed *)
    destruct (tasks s !! i) as [p|] eqn:Ei; [|discriminate].
    destruct (admissible (browser s) p r); [|discriminate].
    destruct (resume (browser s) p r) as [[[w p'] reqs]|] eqn:Er; [|discriminate].
    injection H as <-. unfold numbered. cbn [browser tasks].
    apply resume_controllers in Er as [(E1 & E2 & E3)|(E1 & E2 & E3)].
    + rewrite E1, E2. split; [exact Hc|].
      eapply signals_apart_insert_same; eassumption.
    + rewrite E1, E2. split; [reflexivity|].
      apply signals_apart_insert_new; assumption.
Qed.

(** X20. Whatever the calls and the replies, the controllers stay numbered
    in the order of their creation: the current controller is the one
    created last, every task that sent a streaming request holds the signal
    of a controller that was created, and no two tasks hold the same
    signal. *)
Theorem controllers_stay_numbered (s : system) (acts : list action) (s' : system) :
  numbered s -> exec s acts = Some s' -> numbered s'.
Proof.
  revert s. induction acts as [|a acts IH]; intros s Hn H.
  - injection H as <-. exact Hn.
  - cbn [exec] in H. destruct (step s a) as [s1|] eqn:E; [|discriminate].
    apply (IH s1); [|exact H]. exact (numbered_step _ _ _ Hn E).
Qed.

Lemma controllers_stay_numbered_witness :
  numbered one_stream_reading.
Proof.
  apply (controllers_stay_numbered idle_system first_stream).
  - split; [reflexivity|]. split; intros; discriminate.
  - vm_compute. reflexivity.
Defined.

(** The systems that the idle page reaches are numbered. *)
Lemma numbered_from_idle acts s : exec idle_system acts = Some s -> numbered s.
Proof.
  assert (numbered idle_system) as Hn.
  { split; [reflexivity|]. split; intros; discriminate. }
  revert Hn. generalize idle_system. induction acts as [|a acts IH]; intros s0 Hn H.
  - injection H as <-. exact Hn.
  - cbn [exec] in H. destruct (step s0 a) as [s1|] eqn:E; [|discriminate].
    exact (IH s1 (numbered_step _ _ _ Hn E) H).
Qed.

(** X21. [stopStream] raises the signal of the current controller only, so
    of the streams in flight it cancels one, the one whose request was sent
    last: the signal that any other task holds is an earlier one and is
    after the call what it was before, so a stream started earlier is not
    told to stop. *)
Theorem stop_cancels_one_stream
    (s s' : system) (i j : nat) (p q : pc) (ci cj : nat) :
  numbered s ->
  step s Call_stopStream = Some s' ->
  tasks s !! i = Some p -> signal_of p = Some ci ->
  tasks s !! j = Some q -> signal_of q = Some cj ->
  controller (browser s) = Some ci ->
  i <> j ->
  raised (browser s') ci = true
  /\ raised (browser s') cj = raised (browser s) cj
  /\ (cj < ci)%nat
  /\ tasks s' !! i = Some p /\ tasks s' !! j = Some q.
Proof.
  intros [Hc [Hb Hd]] H Hi Hp Hj Hq Hcur Hij.
  cbn [step] in H. injection H as <-.
  rewrite Hcur in Hc.
  assert (cj <> ci) as Hne.
  { intros ->. apply Hij. exact (Hd _ _ _ _ _ Hi Hj Hp Hq). }
  pose proof (Hb _ _ _ Hj Hq) as Hlt. rewrite Hc in Hlt.
  unfold stopStream, abort_controller, raised. rewrite Hcur.
  cbn [spawn browser tasks aborted existsb].
  split; [rewrite Nat.eqb_refl; reflexivity|].
  split; [apply Nat.eqb_neq in Hne; rewrite Hne; reflexivity|].
  split; [lia|].
  split; apply lookup_app_l_Some; assumption.
Qed.

Lemma stop_cancels_one_stream_witness :
  exists s',
    step two_streams_reading Call_stopStream = Some s'
    /\ List.length (List.filter reading (tasks s')) = 2%nat
    /\ raised (browser s') 1 = true
    /\ raised (browser s') 0 = false.
Proof.
  exists (spawn two_streams_reading (stopStream (browser two_streams_reading))).
  split; [reflexivity|]. split; [vm_compute; reflexivity|].
  destruct (stop_cancels_one_stream two_streams_reading
              (spawn two_streams_reading (stopStream (browser two_streams_reading)))
              1 0
              (AwaitRead 1 {| decoder := utf8_start; BOM_seen := true |} [])
              (AwaitRead 0 {| decoder := utf8_start; BOM_seen := true |} [])
              1 0)
    as (H1 & H0 & _).
  - apply (numbered_from_idle overlapping_streams). vm_compute. reflexivity.
  - reflexivity.
  - vm_compute. reflexivity.
  - reflexivity.
  - vm_compute. reflexivity.
  - reflexivity.
  - vm_compute. reflexivity.
  - discriminate.
  - split; [exact H1|]. rewrite H0. vm_compute. reflexivity.
Defined.

(** ** What every request carries *)

Ltac carried :=
  repeat (constructor; [unfold carries; cbn; first [reflexivity|exact I]|]);
  constructor.

Ltac elements :=
  unfold same_elements;
  match goal with
  | |- context [sendBtn ?w] =>
      is_var w; destruct w as [? ? ? ? ? ? [?|] [?|] [?|] [?|] [?|] [?|] [?|]]
  end;
  cbn; repeat split.

Lemma resume_runtime w p r w' p' reqs :
  resume w p r = Some (w', p', reqs) ->
  RUNTIME_ID w' = RUNTIME_ID w /\ same_elements w w'
  /\ Forall (carries (RUNTIME_ID w)) reqs.
Proof.
  intros Hr. destruct p as [a|a|a|signal|signal td buf| | |o]; destruct r;
    try discriminate Hr.
  all: try (cbn [resume] in Hr; injection Hr as <- <- <-;
            split; [reflexivity|]; split;
            [elements|carried]).
  - (* the reply to the init request *)
    cbn [resume] in Hr. destruct (negb r_ok || negb js_ok);
      injection Hr as <- <- <-.
    + split; [reflexivity|]. split; [apply same_elements_refl|carried].
    + split; [reflexivity|]. split; [|carried].
      elements.
  - (* the reply to the streaming request *)
    cbn [resume] in Hr. destruct (negb (Response_ok status) || negb body);
      injection Hr as <- <- <-; (split; [reflexivity|]); (split; [|carried]);
      elements.
  - (* the read failed *)
    cbn [resume] in Hr. injection Hr as <- <- <-.
    destruct (streaming w).
    + split; [reflexivity|]. split; [|carried].
      elements.
    + split; [reflexivity|]. split; [apply same_elements_refl|carried].
  - (* a chunk was read *)
    cbn [resume] in Hr. destruct (take_parts td buf value) as [[td' buf'] parts].
    injection Hr as <- <- <-.
    destruct (dispatch_parts_keeps parts w) as ((Hc & _) & _).
    split; [exact Hc|]. split; [apply dispatch_parts_elements|carried].
Qed.

Lemma step_runtime s a s' :
  step s a = Some s' ->
  RUNTIME_ID (browser s') = RUNTIME_ID (browser s)
  /\ same_elements (browser s) (browser s')
  /\ exists new, sent s' = sent s ++ new
                 /\ Forall (fun ir => carries (RUNTIME_ID (browser s)) (snd ir)) new.
Proof.
  intros H. destruct s as [w ts sn]. destruct a as [a| |i r]; cbn [step] in H.
  - injection H as <-. cbn [browser]. unfold startStream, initDialog, loadCards.
    destruct (truthy (dialogId w)); cbn.
    + split; [reflexivity|]. split.
      * elements.
      * eexists. split; [reflexivity|]. carried.
    + split; [reflexivity|]. split; [apply same_elements_refl|].
      eexists. split; [reflexivity|]. carried.
  - injection H as <-. unfold stopStream, abort_controller.
    cbn [browser]. destruct (controller w); cbn;
      (split; [reflexivity|]); (split; [repeat split|]);
      (eexists; split; [reflexivity|]; carried).
  - cbn [browser tasks sent] in H.
    destruct (ts !! i) as [p|]; [|discriminate].
    destruct (admissible w p r); [|discriminate].
    destruct (resume w p r) as [[[w1 p'] reqs]|] eqn:Er; [|discriminate].
    injection H as <-. cbn [browser sent].
    apply resume_runtime in Er as (E1 & E2 & E3).
    split; [exact E1|]. split; [exact E2|].
    eexists. split; [reflexivity|].
    induction E3; constructor; assumption.
Qed.

(** X22. Whatever the calls and the replies, the page keeps the runtime
    identifier it was loaded with and every request sent with an identifier
    carries that one; and the page gains and loses no element: the optional
    ones that are missing stay missing. *)
Theorem requests_carry_runtime_id (s : system) (acts : list action) (s' : system) :
  exec s acts = Some s' ->
  RUNTIME_ID (browser s') = RUNTIME_ID (browser s)
  /\ same_elements (browser s) (browser s')
  /\ exists new, sent s' = sent s ++ new
                 /\ Forall (fun ir => carries (RUNTIME_ID (browser s)) (snd ir)) new.
Proof.
  revert s. induction acts as [|a acts IH]; intros s H.
  - injection H as <-. split; [reflexivity|]. split; [apply same_elements_refl|].
    exists []. split; [symmetry; apply app_nil_r|constructor].
  - cbn [exec] in H. destruct (step s a) as [s1|] eqn:E; [|discriminate].
    apply step_runtime in E as (E1 & E2 & new1 & E3 & E4).
    apply IH in H as (H1 & H2 & new2 & H3 & H4).
    split; [congruence|]. split; [eapply same_elements_trans; eassumption|].
    exists (new1 ++ new2). split; [rewrite H3, E3, app_assoc; reflexivity|].
    apply Forall_app. split; [exact E4|]. rewrite E1 in H4. exact H4.
Qed.

Lemma requests_carry_runtime_id_witness :
  RUNTIME_ID (browser one_stream_reading) = lit "run-1".
Proof.
  apply (requests_carry_runtime_id idle_system first_stream one_stream_reading).
  vm_compute. reflexivity.
Defined.

(** ** A stream stopped while it is read *)

Lemma exec_cons s a s1 acts :
  step s a = Some s1 -> exec s (a :: acts) = exec s1 acts.
Proof. intros H. cbn [exec]. rewrite H. reflexivity. Qed.

Lemma settle_reader L q w sn i p r w' p' reqs :
  L !! i = Some p -> admissible w p r = true ->
  resume w p r = Some (w', p', reqs) ->
  step {| browser := w; tasks := L ++ [q]; sent := sn |} (Settle i r)
  = Some {| browser := w'; tasks := <[i:=p']> L ++ [q];
            sent := sn ++ map (pair i) reqs |}.
Proof.
  intros Hi Ha Hr. cbn [step browser tasks sent].
  rewrite (lookup_app_l_Some _ _ _ _ Hi), Ha, Hr.
  rewrite insert_app_l by (eapply lookup_lt_Some; exact Hi). reflexivity.
Qed.

Lemma settle_last L q w sn n r w' p' reqs :
  n = List.length L -> admissible w q r = true ->
  resume w q r = Some (w', p', reqs) ->
  step {| browser := w; tasks := L ++ [q]; sent := sn |} (Settle n r)
  = Some {| browser := w'; tasks := L ++ [p'];
            sent := sn ++ map (pair n) reqs |}.
Proof.
  intros -> Ha Hr. cbn [step browser tasks sent].
  rewrite list_lookup_middle by reflexivity. rewrite Ha, Hr.
  rewrite insert_app_r_alt by reflexivity. rewrite Nat.sub_diag. reflexivity.
Qed.

Lemma admissible_abort w p e :
  is_AbortError (Rejects e) = true -> admissible w p (Rejects e) = true.
Proof.
  intros H. destruct p; cbn [admissible]; try reflexivity;
    destruct (raised w _); auto.
Qed.

Lemma stopped_after_reset w :
  stopped (finally_reset w) = finally_reset (stopped w).
Proof.
  destruct w as [? ? ? ? ? ? [?|] [?|] ? ? ? ? [?|]]; reflexivity.
Qed.

Lemma stopped_after_history h w :
  stopped (show_history h w) = show_history h (stopped w).
Proof. reflexivity. Qed.

Lemma stopped_after_interruption t w :
  stopped (if streaming w then setStatus t w else w) = stopped w.
Proof.
  destruct w as [? ? ? [|] ? ? ? ? ? ? ? ? [?|]]; reflexivity.
Qed.

Lemma stopped_after_shown r w :
  stopped (history_shown r w) = history_shown r (stopped w).
Proof. destruct r; reflexivity. Qed.

Lemma resume_history w r :
  (exists h, r = HistoryReply h) \/ (exists e, r = Rejects e) ->
  resume w AwaitHistory r
  = Some (finally_reset (history_shown r w), Settled Fulfilled, []).
Proof. intros [[h ->]|[e ->]]; reflexivity. Qed.

Lemma resume_stop w r :
  r = StopReply \/ (exists e, r = Rejects e) ->
  resume w AwaitStop r = Some (stopped w, Settled Fulfilled, []).
Proof. intros [->|[e ->]]; reflexivity. Qed.

Lemma resume_read_rejects w signal td buf e :
  resume w (AwaitRead signal td buf) (Rejects e)
  = Some (if streaming w then setStatus (txt_interrupted ++ String_of_exn e) w else w,
          AwaitHistory,
          [GET_history (RUNTIME_ID w) (dialogId w)]).
Proof. cbn [resume]. unfold loadHistory. destruct (streaming w); reflexivity. Qed.

Lemma stop_final_page w r signal :
  controller w = Some signal ->
  statusEl (finally_reset (history_shown r (stopped (abort_controller w))))
  = option_map (fun _ => txt_stopped) (statusEl w)
  /\ streaming (finally_reset (history_shown r (stopped (abort_controller w)))) = false
  /\ send_enabled (finally_reset (history_shown r (stopped (abort_controller w))))
  /\ stop_disabled (finally_reset (history_shown r (stopped (abort_controller w))))
  /\ raised (finally_reset (history_shown r (stopped (abort_controller w)))) signal = true.
Proof.
  intros Hc. unfold abort_controller, send_enabled, stop_disabled, raised.
  rewrite Hc.
  destruct w as [? ? ? ? ? ? [?|] [?|] ? ? ? ? [?|]]; destruct r; cbn;
    rewrite ?Nat.eqb_refl; repeat split; discriminate.
Qed.

(** X23. A stream stopped while it is read ends the same way in whatever
    order the browser delivers what follows the call of [stopStream]: the
    answer to the stop request, the rejection of the pending read, and the
    answer to the history request that the rejected read leads to.  Both
    tasks end fulfilled and the page is the same in the three orders: the
    stopped status, the streaming flag down, the send button enabled, the
    stop button disabled, the stream's signal raised. *)
Theorem stop_order_is_immaterial
    (s : system) (i signal : nat) (td : TextDecoder) (buf : jsstring) (e : exn)
    (stop_reply history_reply : settled) (acts : list action) :
  tasks s !! i = Some (AwaitRead signal td buf) ->
  controller (browser s) = Some signal ->
  is_AbortError (Rejects e) = true ->
  stop_reply = StopReply \/ (exists e', stop_reply = Rejects e') ->
  (exists h, history_reply = HistoryReply h) \/ (exists e', history_reply = Rejects e') ->
  In acts (stop_orders i (List.length (tasks s)) e stop_reply history_reply) ->
  exists s',
    exec s (Call_stopStream :: acts) = Some s'
    /\ browser s'
       = finally_reset (history_shown history_reply (stopped (abort_controller (browser s))))
    /\ tasks s' = <[i := Settled Fulfilled]> (tasks s) ++ [Settled Fulfilled]
    /\ statusEl (browser s') = option_map (fun _ => txt_stopped) (statusEl (browser s))
    /\ streaming (browser s') = false
    /\ send_enabled (browser s') /\ stop_disabled (browser s')
    /\ raised (browser s') signal = true.
Proof.
  intros Hi Hc He Hstop Hhist Hacts.
  destruct s as [w ts sn]. cbn [browser tasks] in *.
  pose proof (lookup_lt_Some _ _ _ Hi) as Hlt.
  pose proof (stop_final_page w history_reply signal Hc) as Hpage.
  set (w0 := abort_controller w) in *.
  assert (Hstep : forall acts',
             exec {| browser := w; tasks := ts; sent := sn |} (Call_stopStream :: acts')
             = exec {| browser := w0; tasks := ts ++ [AwaitStop];
                       sent := sn ++ [(List.length ts, POST_stop (RUNTIME_ID w0) (dialogId w0))] |}
                 acts').
  { intros acts'. reflexivity. }
  assert (Hs : streaming (stopped w0) = false) by reflexivity.
  destruct Hacts as [<-|[<-|[<-|[]]]]; rewrite Hstep; eexists.
  - (* the stop reply, the rejection, the history *)
    erewrite exec_cons
      by (apply settle_last; [reflexivity|reflexivity|apply resume_stop; exact Hstop]).
    erewrite exec_cons
      by (eapply settle_reader;
          [exact Hi|apply admissible_abort; exact He|apply resume_read_rejects]).
    rewrite Hs.
    erewrite exec_cons
      by (eapply settle_reader;
          [apply list_lookup_insert_eq; exact Hlt|reflexivity
          |apply resume_history; exact Hhist]).
    cbn [exec browser tasks]. split; [reflexivity|]. split; [reflexivity|].
    split; [rewrite list_insert_insert_eq; reflexivity|]. exact Hpage.
  - (* the rejection, the stop reply, the history *)
    erewrite exec_cons
      by (eapply settle_reader;
          [exact Hi|apply admissible_abort; exact He|apply resume_read_rejects]).
    erewrite exec_cons
      by (apply settle_last;
          [rewrite length_insert; reflexivity|reflexivity|apply resume_stop; exact Hstop]).
    rewrite stopped_after_interruption.
    erewrite exec_cons
      by (eapply settle_reader;
          [apply list_lookup_insert_eq; exact Hlt|reflexivity
          |apply resume_history; exact Hhist]).
    cbn [exec browser tasks]. split; [reflexivity|]. split; [reflexivity|].
    split; [rewrite list_insert_insert_eq; reflexivity|]. exact Hpage.
  - (* the rejection, the history, the stop reply *)
    erewrite exec_cons
      by (eapply settle_reader;
          [exact Hi|apply admissible_abort; exact He|apply resume_read_rejects]).
    erewrite exec_cons
      by (eapply settle_reader;
          [apply list_lookup_insert_eq; exact Hlt|reflexivity
          |apply resume_history; exact Hhist]).
    erewrite exec_cons
      by (apply settle_last;
          [rewrite !length_insert; reflexivity|reflexivity|apply resume_stop; exact Hstop]).
    rewrite stopped_after_reset, stopped_after_shown, stopped_after_interruption.
    cbn [exec browser tasks]. split; [reflexivity|]. split; [reflexivity|].
    split; [rewrite list_insert_insert_eq; reflexivity|]. exact Hpage.
Qed.

Lemma stop_order_is_immaterial_witness :
  exists s',
    exec one_stream_reading
      [ Call_stopStream;
        Settle 0 (Rejects (AbortError (lit "The user aborted a request.")));
        Settle 1 StopReply;
        Settle 0 (HistoryReply [lit "a"; lit "A1"]) ]
    = Some s'
    /\ statusEl (browser s') = Some txt_stopped.
Proof.
  destruct (stop_order_is_immaterial one_stream_reading 0 0
              {| decoder := utf8_start; BOM_seen := true |} []
              (AbortError (lit "The user aborted a request."))
              StopReply (HistoryReply [lit "a"; lit "A1"])
              [ Settle 0 (Rejects (AbortError (lit "The user aborted a request.")));
                Settle 1 StopReply;
                Settle 0 (HistoryReply [lit "a"; lit "A1"]) ])
    as (s' & E & _ & _ & Hs & _).
  - reflexivity.
  - reflexivity.
  - reflexivity.
  - left. reflexivity.
  - left. eexists. reflexivity.
  - right. left. reflexivity.
  - exists s'. split; [exact E|exact Hs].
Defined.



(** ** After the done event *)

Lemma frame_app segs1 segs2 : frame (segs1 ++ segs2) = frame segs1 ++ frame segs2.
Proof. unfold frame. apply flat_map_app. Qed.

Lemma frame_not_nil before seg after : frame (before ++ seg :: after) <> [].
Proof.
  rewrite frame_app. cbn [frame flat_map]. intros E.
  apply app_eq_nil in E as [_ E]. apply app_eq_nil in E as [E _].
  apply app_eq_nil in E as [_ E]. discriminate E.
Qed.

(** One read of a whole body of well-framed segments: every segment is
    dispatched, in order, and the buffer is left empty. *)
Lemma feed_framed w signal bytes segs :
  decoded bytes = frame segs ->
  forallb well_framed segs = true ->
  feed w (AwaitRead signal new_TextDecoder []) [bytes]
  = Some (dispatch_parts w segs,
          AwaitRead signal (fst (decode new_TextDecoder bytes)) []).
Proof.
  intros Hd Hw. rewrite feed_read. unfold take_parts, decoded in *.
  destruct (decode new_TextDecoder bytes) as [td text]. cbn [fst snd] in *. subst text.
  cbn [app]. rewrite split_NN_frame by exact Hw.
  unfold popped, pop_or_empty. rewrite removelast_last, last_last. reflexivity.
Qed.

(** C7. In a body of well-framed segments one of which is a [done] event,
    however the body is cut into chunks: when the [done] segment has been
    dispatched the status is the completion text, the streaming flag is down,
    the send button enabled and the stop button disabled; and the loop goes
    on: every segment after it is parsed and dispatched, in order, on the
    page that [done] left, across the chunks that follow, and at the end of
    the bytes the task holds an empty buffer and awaits the next read, which
    it takes like any other. *)
Theorem done_does_not_stop_reading
    (w : page) (signal : nat) (chunks : list (list byte))
    (before : list jsstring) (seg : jsstring) (after : list jsstring) :
  decoded (concat chunks) = frame (before ++ seg :: after) ->
  forallb well_framed (before ++ seg :: after) = true ->
  kind (parse_segment seg) = lit "done" ->
  statusEl (dispatch_parts w (before ++ [seg]))
  = option_map (fun _ => txt_done) (statusEl w)
  /\ streaming (dispatch_parts w (before ++ [seg])) = false
  /\ send_enabled (dispatch_parts w (before ++ [seg]))
  /\ stop_disabled (dispatch_parts w (before ++ [seg]))
  /\ feed w (AwaitRead signal new_TextDecoder []) chunks
     = Some (fold_left (fun w chunk => dispatch w (parse_segment chunk)) after
               (dispatch_parts w (before ++ [seg])),
             AwaitRead signal (fst (decode new_TextDecoder (concat chunks))) [])
  /\ (forall value,
         feed w (AwaitRead signal new_TextDecoder []) (chunks ++ [value])
         = feed w (AwaitRead signal new_TextDecoder []) [concat chunks ++ value]).
Proof.
  intros Hd Hw K.
  assert (dispatch_parts w (before ++ [seg])
          = set_stopBtn_disabled true
              (set_sendBtn_disabled false
                 (set_streaming false (setStatus txt_done (dispatch_parts w before)))))
    as E.
  { unfold dispatch_parts. rewrite fold_left_app. cbn [fold_left].
    unfold dispatch at 1. rewrite K. reflexivity. }
  destruct (dispatch_parts_elements before w) as (_ & _ & _ & _ & _ & _ & Hs).
  assert (chunks <> []) as Hne.
  { intros ->. apply (frame_not_nil before seg after). rewrite <- Hd. reflexivity. }
  destruct chunks as [|c rest]; [contradiction|].
  split; [|split; [|split; [|split; [|split]]]].
  - rewrite E. cbn.
    destruct (statusEl (dispatch_parts w before)), (statusEl w);
      try discriminate Hs; reflexivity.
  - rewrite E. reflexivity.
  - rewrite E. unfold send_enabled. cbn.
    destruct (sendBtn (dispatch_parts w before)); discriminate.
  - rewrite E. unfold stop_disabled. cbn.
    destruct (stopBtn (dispatch_parts w before)); discriminate.
  - rewrite feed_cons. change (c ++ concat rest) with (concat (c :: rest)).
    rewrite (feed_framed w signal _ _ Hd Hw).
    unfold dispatch_parts. rewrite <- fold_left_app, <- app_assoc. reflexivity.
  - intros value. cbn [app]. rewrite feed_cons.
    rewrite concat_app. cbn [concat]. rewrite app_nil_r, app_assoc. reflexivity.
Qed.

Lemma done_does_not_stop_reading_witness :
  feed idle_page (AwaitRead 0 new_TextDecoder [])
    [ sse "answer" "A1" ++ bytes_of "event: do";
      bytes_of "ne" ++ [x0a; x0a] ++ bytes_of "event: answer" ++ [x0a] ++ bytes_of "data: la";
      bytes_of "te" ++ [x0a; x0a] ]
  = Some (fold_left (fun w chunk => dispatch w (parse_segment chunk))
            [lit "event: answer" ++ [LF] ++ lit "data: late"]
            (dispatch_parts idle_page
               ([lit "event: answer" ++ [LF] ++ lit "data: A1"] ++ [lit "event: done"])),
          AwaitRead 0 {| decoder := utf8_start; BOM_seen := true |} [])
  /\ answerBox
       (fold_left (fun w chunk => dispatch w (parse_segment chunk))
          [lit "event: answer" ++ [LF] ++ lit "data: late"]
          (dispatch_parts idle_page
             ([lit "event: answer" ++ [LF] ++ lit "data: A1"] ++ [lit "event: done"])))
     = Some (lit "A1late").
Proof.
  split; [|reflexivity].
  apply (done_does_not_stop_reading idle_page 0
           [ sse "answer" "A1" ++ bytes_of "event: do";
             bytes_of "ne" ++ [x0a; x0a] ++ bytes_of "event: answer" ++ [x0a]
               ++ bytes_of "data: la";
             bytes_of "te" ++ [x0a; x0a] ]
           [lit "event: answer" ++ [LF] ++ lit "data: A1"] (lit "event: done")
           [lit "event: answer" ++ [LF] ++ lit "data: late"]);
    reflexivity.
Defined.

(** After [done], in the same chunk and in the next one, text still arrives. *)
Example answer_after_done :
  exists w1 p1 w2 p2,
    resume idle_page (AwaitRead 0 new_TextDecoder [])
      (ReadChunk (sse "done" "ok" ++ sse "answer" "late")) = Some (w1, p1, [])
    /\ answerBox w1 = Some (lit "late") /\ statusEl w1 = Some txt_done
    /\ resume w1 p1 (ReadChunk (sse "answer" "r")) = Some (w2, p2, [])
    /\ answerBox w2 = Some (lit "later") /\ reading p2 = true.
Proof. do 4 eexists. repeat split. Qed.

(** ** [stopStream] with no stream *)

Lemma exec_runtime_id s acts s' :
  exec s acts = Some s' -> RUNTIME_ID (browser s') = RUNTIME_ID (browser s).
Proof.
  revert s. induction acts as [|a acts IH]; intros s H.
  - injection H as <-. reflexivity.
  - cbn [exec] in H. destruct (step s a) as [s1|] eqn:E; [|discriminate].
    apply step_runtime in E as (E & _). rewrite (IH _ H). exact E.
Qed.

(** C8, as the code has it.  [stopStream] called while the streaming flag
    is down raises no exception, whether its stop request succeeds or
    fails, and is not without effect.  The call leaves the identifiers, both
    boxes, the status, the buttons and the flag as they are and sends the
    stop request.  When the request has settled, whatever ran in between,
    the task fulfils and, on the page as it then is, keeps the identifiers
    and both boxes, sends nothing, and writes the stopped status, lowers the
    streaming flag, enables the send button and disables the stop button. *)
Theorem stop_without_stream
    (s : system) (acts : list action) (s1 : system) (r : settled) :
  streaming (browser s) = false ->
  r = StopReply \/ (exists e, r = Rejects e) ->
  exec s (Call_stopStream :: acts) = Some s1 ->
  tasks s1 !! List.length (tasks s) = Some AwaitStop ->
  (exists s0,
      step s Call_stopStream = Some s0 /\ exec s0 acts = Some s1
      /\ tasks s0 = tasks s ++ [AwaitStop]
      /\ sent s0 = sent s ++ [(List.length (tasks s),
                               POST_stop (RUNTIME_ID (browser s)) (dialogId (browser s)))]
      /\ RUNTIME_ID (browser s0) = RUNTIME_ID (browser s)
      /\ dialogId (browser s0) = dialogId (browser s)
      /\ reasonBox (browser s0) = reasonBox (browser s)
      /\ answerBox (browser s0) = answerBox (browser s)
      /\ statusEl (browser s0) = statusEl (browser s)
      /\ sendBtn (browser s0) = sendBtn (browser s)
      /\ stopBtn (browser s0) = stopBtn (browser s)
      /\ streaming (browser s0) = false)
  /\ (exists s2,
      step s1 (Settle (List.length (tasks s)) r) = Some s2
      /\ tasks s2 = <[List.length (tasks s) := Settled Fulfilled]> (tasks s1)
      /\ sent s2 = sent s1
      /\ RUNTIME_ID (browser s2) = RUNTIME_ID (browser s)
      /\ dialogId (browser s2) = dialogId (browser s1)
      /\ reasonBox (browser s2) = reasonBox (browser s1)
      /\ answerBox (browser s2) = answerBox (browser s1)
      /\ statusEl (browser s2) = option_map (fun _ => txt_stopped) (statusEl (browser s1))
      /\ streaming (browser s2) = false
      /\ send_enabled (browser s2) /\ stop_disabled (browser s2)).
Proof.
  intros Hs Hr Hx Ht. split.
  - exists (spawn s (stopStream (browser s))).
    split; [reflexivity|]. split; [exact Hx|].
    unfold stopStream, abort_controller.
    destruct (controller (browser s)); cbn; repeat split; exact Hs.
  - assert (resume (browser s1) AwaitStop r
            = Some (stopped (browser s1), Settled Fulfilled, [])) as E.
    { destruct Hr as [-> | [e ->]]; reflexivity. }
    eexists. split.
    { cbn [step]. rewrite Ht. cbn [admissible]. rewrite E. reflexivity. }
    cbn [browser tasks sent]. split; [reflexivity|]. split; [apply app_nil_r|].
    split; [exact (exec_runtime_id _ _ _ Hx)|].
    unfold send_enabled, stop_disabled. cbn.
    destruct (statusEl (browser s1)), (sendBtn (browser s1)), (stopBtn (browser s1));
      repeat split; discriminate.
Qed.

Lemma stop_without_stream_witness :
  exists s2,
    exec idle_system [Call_stopStream; Settle 0 (Rejects (Error (lit "Failed to fetch")))]
    = Some s2
    /\ RUNTIME_ID (browser s2) = RUNTIME_ID idle_page
    /\ dialogId (browser s2) = dialogId idle_page
    /\ reasonBox (browser s2) = reasonBox idle_page
    /\ answerBox (browser s2) = answerBox idle_page
    /\ streaming (browser s2) = false
    /\ statusEl (browser s2) = Some txt_stopped.
Proof.
  destruct (stop_without_stream idle_system []
              (spawn idle_system (stopStream (browser idle_system)))
              (Rejects (Error (lit "Failed to fetch"))))
    as [_ (s2 & E & _ & _ & Hr & Hd & Hb & Ha & Ht & Hf & _)].
  - reflexivity.
  - right. eexists. reflexivity.
  - reflexivity.
  - reflexivity.
  - exists s2.
    split; [erewrite exec_cons by reflexivity; erewrite exec_cons by exact E;
            reflexivity|].
    split; [exact Hr|]. split; [rewrite Hd; reflexivity|].
    split; [rewrite Hb; reflexivity|]. split; [rewrite Ha; reflexivity|].
    split; [exact Hf|]. rewrite Ht. reflexivity.
Defined.

(** C8 as stated fails.  On the idle page, where no stream is active, a
    call of [stopStream] is not without effect: it sends a stop request and
    the status, empty before, shows the stopped text.  And the state does not
    stay as it was when a stream is started before the stop request is
    answered: the answer then lowers the flag and disables the stop button
    of a stream that is being read and whose signal was never raised. *)
Lemma stop_is_not_a_noop_counterexample :
  streaming idle_page = false /\ statusEl idle_page = Some []
  /\ (exists s,
        exec idle_system [Call_stopStream; Settle 0 StopReply] = Some s
        /\ sent s = [(0%nat, POST_stop (lit "run-1") (lit "d1"))]
        /\ statusEl (browser s) = Some txt_stopped)
  /\ (exists s,
        exec idle_system
          [ Call_stopStream;
            Call_startStream (default_args (lit "a"));
            Settle 1 (StreamReply 200 true);
            Settle 0 StopReply ] = Some s
        /\ tasks s = [Settled Fulfilled; AwaitRead 0 new_TextDecoder []]
        /\ raised (browser s) 0 = false
        /\ streaming (browser s) = false
        /\ stopBtn (browser s) = Some true
        /\ statusEl (browser s) = Some txt_stopped).
Proof.
  split; [reflexivity|]. split; [reflexivity|]. split.
  - eexists. split; [vm_compute; reflexivity|]. repeat split.
  - eexists. split; [vm_compute; reflexivity|]. repeat split.
Qed.

(** ** Two streams at once *)

Lemma resume_aborted w p r w' p' reqs :
  resume w p r = Some (w', p', reqs) -> aborted w' = aborted w.
Proof.
  intros Hr. destruct p as [a|a|a|signal|signal td buf| | |o]; destruct r;
    try discriminate Hr.
  all: try (resumed Hr; reflexivity).
  - (* the read failed *)
    cbn [resume] in Hr. injection Hr as <- <- <-.
    destruct (streaming w); reflexivity.
  - (* a chunk was read *)
    cbn [resume] in Hr. destruct (take_parts td buf value) as [[td' buf'] parts].
    injection Hr as <- <- <-.
    destruct (dispatch_parts_keeps parts w) as ((_ & _ & _ & _ & Ha & _) & _).
    exact Ha.
Qed.

Lemma step_aborted t act t' :
  step t act = Some t' ->
  aborted (browser t')
  = match act, controller (browser t) with
    | Call_stopStream, Some c => c :: aborted (browser t)
    | _, _ => aborted (browser t)
    end.
Proof.
  intros H. destruct act as [a| |i r]; cbn [step] in H.
  - injection H as <-. unfold startStream, initDialog, loadCards.
    destruct (truthy (dialogId (browser t))); reflexivity.
  - injection H as <-. unfold stopStream, abort_controller.
    destruct (controller (browser t)); reflexivity.
  - destruct (tasks t !! i) as [p|]; [|discriminate].
    destruct (admissible (browser t) p r); [|discriminate].
    destruct (resume (browser t) p r) as [[[w p'] reqs]|] eqn:Er; [|discriminate].
    injection H as <-. cbn [browser]. exact (resume_aborted _ _ _ _ _ _ Er).
Qed.

(** C2, as the code has it.  A call of [startStream] with the session open
    empties both boxes, installs a new controller and raises the streaming
    flag; it aborts no controller and touches no task, so a stream that was
    being read, its signal not raised, is read on: its next chunk is
    accepted and its events are dispatched to the page the new call left.
    Of all the steps of the page (a call of [startStream], a call of
    [stopStream], a task resumed with whatever settled), only the call of
    [stopStream] raises a signal, and it raises one: that of the current
    controller, which in every state the page reaches is the one created
    last, no task holding a later one. *)
Theorem start_leaves_previous_stream
    (s : system) (a : args) (i signal : nat) (td : TextDecoder) (buf : jsstring)
    (value : list byte) :
  truthy (dialogId (browser s)) = true ->
  tasks s !! i = Some (AwaitRead signal td buf) ->
  raised (browser s) signal = false ->
  (exists s1 s2,
    step s (Call_startStream a) = Some s1
    /\ tasks s1 = tasks s ++ [AwaitStream (controllers (browser s))]
    /\ aborted (browser s1) = aborted (browser s)
    /\ controller (browser s1) = Some (controllers (browser s))
    /\ streaming (browser s1) = true
    /\ reasonBox (browser s1) = option_map (fun _ => []) (reasonBox (browser s))
    /\ answerBox (browser s1) = option_map (fun _ => []) (answerBox (browser s))
    /\ step s1 (Settle i (ReadChunk value)) = Some s2
    /\ browser s2 = dispatch_parts (browser s1) (snd (take_parts td buf value))
    /\ (exists td' buf', tasks s2 !! i = Some (AwaitRead signal td' buf')))
  /\ (forall t act t',
        step t act = Some t' ->
        aborted (browser t')
        = match act, controller (browser t) with
          | Call_stopStream, Some c => c :: aborted (browser t)
          | _, _ => aborted (browser t)
          end)
  /\ (forall t0 acts t c,
        numbered t0 -> exec t0 acts = Some t ->
        controller (browser t) = Some c ->
        controllers (browser t) = S c
        /\ forall j p c',
             tasks t !! j = Some p -> signal_of p = Some c' -> (c' <= c)%nat).
Proof.
  intros Hd Hi Hr. split; [|split].
  - assert (startStream a (browser s) = connect a (browser s)) as Es.
    { unfold startStream. rewrite Hd. reflexivity. }
    assert (i < List.length (tasks s))%nat as Hlt by (eapply lookup_lt_Some; eassumption).
    destruct (take_parts td buf value) as [[td' buf'] parts] eqn:Et.
    eexists. eexists.
    split; [cbn [step]; rewrite Es; reflexivity|].
    cbn [spawn connect browser tasks sent].
    do 6 (split; [reflexivity|]).
    split.
    + cbn [step tasks browser]. rewrite (lookup_app_l_Some _ _ _ _ Hi).
      unfold admissible. change (raised _ signal) with (raised (browser s) signal).
      rewrite Hr. cbn [resume]. rewrite Et. reflexivity.
    + cbn [browser tasks snd]. split; [reflexivity|].
      exists td', buf'. apply list_lookup_insert_eq. rewrite length_app. lia.
  - exact step_aborted.
  - intros t0 acts. revert t0. induction acts as [|act acts IH]; intros t0 t c Hn Hx Hc.
    + injection Hx as <-. destruct Hn as [Hl [Hb _]]. rewrite Hc in Hl.
      split; [exact Hl|]. intros j p c' Hj Hp.
      specialize (Hb _ _ _ Hj Hp). lia.
    + cbn [exec] in Hx. destruct (step t0 act) as [t1|] eqn:E; [|discriminate].
      exact (IH t1 t c (numbered_step _ _ _ Hn E) Hx Hc).
Qed.

Lemma start_leaves_previous_stream_witness :
  exists s1 s2 s3,
    step one_stream_reading (Call_startStream (default_args (lit "b"))) = Some s1
    /\ aborted (browser s1) = []
    /\ step s1 (Settle 0 (ReadChunk (sse "answer" "A2"))) = Some s2
    /\ answerBox (browser s2) = Some (lit "A2")
    /\ step s2 Call_stopStream = Some s3
    /\ aborted (browser s3) = [1%nat]
    /\ controllers (browser one_stream_reading) = 1%nat.
Proof.
  destruct (start_leaves_previous_stream one_stream_reading
              (default_args (lit "b")) 0 0
              {| decoder := utf8_start; BOM_seen := true |} []
              (sse "answer" "A2"))
    as ((s1 & s2 & E1 & _ & Ha & Hc & _ & _ & Hb & E2 & Hw & _) & Hstep & Hlast);
    [reflexivity|reflexivity|reflexivity|].
  exists s1, s2, (spawn s2 (stopStream (browser s2))).
  split; [exact E1|]. split; [rewrite Ha; reflexivity|].
  split; [exact E2|]. split.
  - rewrite Hw.
    cbn [option_map] in Hb. unfold dispatch_parts.
    change (snd (take_parts {| decoder := utf8_start; BOM_seen := true |} []
                   (sse "answer" "A2")))
      with [lit "event: answer" ++ [LF] ++ lit "data: A2"].
    cbn [fold_left].
    change (parse_segment (lit "event: answer" ++ [LF] ++ lit "data: A2"))
      with {| kind := lit "answer"; payload := lit "A2" |}.
    change (dispatch (browser s1) {| kind := lit "answer"; payload := lit "A2" |})
      with (appendText AnswerBox (lit "A2") (browser s1)).
    cbn [appendText scroll_to_end set_box answerBox]. rewrite Hb. reflexivity.
  - destruct (dispatch_parts_keeps
                (snd (take_parts {| decoder := utf8_start; BOM_seen := true |} []
                        (sse "answer" "A2"))) (browser s1))
      as ((_ & _ & Hk & _) & _).
    assert (controller (browser s2) = Some 1%nat) as Hc2.
    { rewrite Hw, Hk, Hc. reflexivity. }
    split; [reflexivity|]. split.
    + rewrite (Hstep s2 Call_stopStream _ eq_refl).
      rewrite (Hstep s1 (Settle 0 (ReadChunk (sse "answer" "A2"))) s2 E2).
      rewrite Hc2, Ha. reflexivity.
    + apply (Hlast idle_system first_stream one_stream_reading 0%nat).
      * split; [reflexivity|]. split; intros; discriminate.
      * vm_compute. reflexivity.
      * reflexivity.
Defined.

(** C2 as stated fails: a second [startStream] is called while the first
    stream is being read; afterwards both tasks are reading, no controller
    has been aborted, and the answer box, emptied by the second call, holds
    the text [B1] of the second stream followed by the text [A2] of the
    first. *)
Lemma overlapping_streams_counterexample :
  exists s,
    exec idle_system overlapping_streams = Some s
    /\ List.filter reading (tasks s) = tasks s
    /\ List.length (tasks s) = 2%nat
    /\ aborted (browser s) = []
    /\ answerBox (browser s) = Some (lit "B1A2").
Proof. eexists. split; [vm_compute; reflexivity|]. repeat split. Qed.
